(** * downloader.py: catalogue resolution, concurrent download, md5 verification

    A shallow embedding of [src/downloader.py].  Python values are modelled
    as follows:
    - [str] is a list of characters, each a Unicode code point ([list N]),
      with string literals;
    - [bytes] is a list of [Byte.byte];
    - the dicts [FILES], [user_entry] and [md_list] are association lists,
      because the program iterates over them in insertion order;
    - the files written by the downloader are a [gmap] from paths to file
      contents, the directories that exist a [gset] of paths;
    - exceptions are values of type [exn]; a computation that may raise
      returns [exn + A];
    - the coroutines of the downloads are states of a step function, and
      the order in which [asyncio] resumes them is a parameter.
    The outside world (HTTP server, errors of the disk, contents of the
    files that are read, the record that [asyncio] logs) is given by
    functions passed to the code. *)

From Stdlib Require Import ZArith NArith Lia.
From Stdlib Require Strings.String Numbers.DecimalString.
From stdpp Require Import base tactics option list gmap strings.

(** ** Strings and bytes

    A character of a Python [str] is a Unicode code point, a number.  A
    string literal of this file stands for the code points that its UTF-8
    text encodes, so that a character is one element of the list whatever
    its width in bytes. *)
Abbreviation char := N.
Abbreviation str := (list N).
Abbreviation bytes := (list Byte.byte).

Definition continuation (b : N) : option N :=
  if ((128 <=? b) && (b <? 192))%N then Some (b - 128)%N else None.

Fixpoint utf8_decode (l : list N) : option (list N) :=
  match l with
  | [] => Some []
  | b :: l1 =>
      if (b <? 128)%N then cons b <$> utf8_decode l1
      else if (b <? 192)%N then None
      else if (b <? 224)%N then
        match l1 with
        | c1 :: l2 =>
            x1 ← continuation c1;
            cons ((b - 192) * 64 + x1)%N <$> utf8_decode l2
        | _ => None
        end
      else if (b <? 240)%N then
        match l1 with
        | c1 :: c2 :: l3 =>
            x1 ← continuation c1; x2 ← continuation c2;
            cons (((b - 224) * 64 + x1) * 64 + x2)%N <$> utf8_decode l3
        | _ => None
        end
      else if (b <? 248)%N then
        match l1 with
        | c1 :: c2 :: c3 :: l4 =>
            x1 ← continuation c1; x2 ← continuation c2; x3 ← continuation c3;
            cons ((((b - 240) * 64 + x1) * 64 + x2) * 64 + x3)%N <$> utf8_decode l4
        | _ => None
        end
      else None
  end.

Definition utf8_encode_char (c : N) : option (list N) :=
  if (c <? 128)%N then Some [c]
  else if (c <? 2048)%N then Some [192 + c / 64; 128 + c mod 64]%N
  else if (c <? 65536)%N then
    Some [224 + c / 4096; 128 + (c / 64) mod 64; 128 + c mod 64]%N
  else if (c <? 1114112)%N then
    Some [240 + c / 262144; 128 + (c / 4096) mod 64; 128 + (c / 64) mod 64;
          128 + c mod 64]%N
  else None.

Definition str_of_literal (l : list Byte.byte) : option str :=
  utf8_decode (Byte.to_N <$> l).
Definition literal_of_str (s : str) : option (list Byte.byte) :=
  l ← mapM utf8_encode_char s;
  Some ((fun n => default Byte.x00 (Byte.of_N n)) <$> concat l).
Definition char_of_literal (l : list Byte.byte) : option N :=
  match str_of_literal l with Some [c] => Some c | _ => None end.
Definition literal_of_char (c : N) : option (list Byte.byte) := literal_of_str [c].
Definition bytes_of_literal (l : list Byte.byte) : bytes := l.

Declare Scope str_scope.
Delimit Scope str_scope with str.
String Notation str str_of_literal literal_of_str : str_scope.
Declare Scope pychar_scope.
Delimit Scope pychar_scope with char.
String Notation N char_of_literal literal_of_char : pychar_scope.
Declare Scope bytes_scope.
Delimit Scope bytes_scope with bytes.
String Notation bytes bytes_of_literal bytes_of_literal : bytes_scope.
Open Scope str_scope.

Example literal_ascii : "a/b" = [97; 47; 98]%N.
Proof. reflexivity. Qed.
Example literal_wide : "日本語" = [26085; 26412; 35486]%N.
Proof. reflexivity. Qed.
Example literal_widths : "é€😀" = [233; 8364; 128512]%N.
Proof. reflexivity. Qed.

(** ** Exceptions *)

Inductive exn :=
  | ValueError (msg : str)
  | UnboundLocalError (var : str)
  | OSError (msg : str)          (* open / read / write / stat failures *)
  | ClientError (msg : str).     (* aiohttp.ClientError and subclasses *)

Global Instance exn_eq_dec : EqDecision exn.
Proof. solve_decision. Defined.

(** The result of running a piece of Python: a value, an exception, or a
    behaviour that this development leaves out ([Unmodelled], which only
    [str.format] produces, see [PyStr.format]). *)
Inductive outcome (A : Type) :=
  | Returns (a : A)
  | Raises (e : exn)
  | Unmodelled.
Arguments Returns {A} a.
Arguments Raises {A} e.
Arguments Unmodelled {A}.

Global Instance outcome_bind : MBind outcome := fun A B k m =>
  match m with
  | Returns a => k a
  | Raises e => Raises e
  | Unmodelled => Unmodelled
  end.
Global Instance outcome_ret : MRet outcome := fun A a => Returns a.

(** ** The Python [str] methods used by the program *)

Module PyStr.

Definition nl : char := 10%N.
Definition backslash : char := 92%N.

(** [s.startswith(sub)] *)
Definition startswith (s sub : str) : bool := bool_decide (sub `prefix_of` s).

(** [sub in s] *)
Fixpoint contains (s sub : str) : bool :=
  startswith s sub ||
  match s with
  | [] => false
  | _ :: s' => contains s' sub
  end.

(** Highest index at which [sub] occurs in [s], if any. *)
Fixpoint rfind_nat (s sub : str) : option nat :=
  match s with
  | [] => if startswith [] sub then Some 0%nat else None
  | _ :: s' =>
      match rfind_nat s' sub with
      | Some i => Some (S i)
      | None => if startswith s sub then Some 0%nat else None
      end
  end.

(** [s.rfind(sub)]: the highest index, or [-1]. *)
Definition rfind (s sub : str) : Z :=
  match rfind_nat s sub with
  | Some i => Z.of_nat i
  | None => (-1)%Z
  end.

(** A slice bound [k] of a sequence of length [n], as Python clamps it. *)
Definition slice_index (n : nat) (k : Z) : nat :=
  if (k <? 0)%Z then Z.to_nat (Z.max 0 (k + Z.of_nat n))
  else Z.to_nat (Z.min k (Z.of_nat n)).

(** [s[:k]] and [s[k:]] *)
Definition slice_to (s : str) (k : Z) : str := take (slice_index (length s) k) s.
Definition slice_from (s : str) (k : Z) : str := drop (slice_index (length s) k) s.

(** [s.replace(old, new)] for a one-character [old], the only form the
    program uses ([replace("\\", "/")] and [replace("*", "{0}")]). *)
Definition replace (s : str) (old : char) (new : str) : str :=
  flat_map (fun c => if N.eqb c old then new else [c]) s.
Arguments replace s old%_char new.

(** [s.split(sep)] for a one-character [sep] ([split("\n")], [split(",")]). *)
Fixpoint split (s : str) (sep : char) : list str :=
  match s with
  | [] => [[]]
  | c :: s' =>
      if N.eqb c sep then [] :: split s' sep
      else match split s' sep with
           | h :: t => (c :: h) :: t
           | [] => [[c]]
           end
  end.

Arguments split s sep%_char.

(** [str(n)] for an integer. *)
Definition str_of_Z (n : Z) : str :=
  Ascii.N_of_ascii <$>
    String.list_ascii_of_string (DecimalString.NilZero.string_of_int (Z.to_int n)).

(** *** [template.format(arg)] with one positional argument

    The replacement fields [{0}] and [{}] and the escapes [{{] and [}}]
    are modelled.  [numbering] remembers whether a field used automatic
    ([{}]) or manual ([{0}]) numbering; Python refuses to mix them, and a
    second [{}] asks for a second argument, which does not exist.  Any
    other replacement field (conversions, format specs, names, indices
    above 0) is left out of the model: [Unmodelled]. *)

Inductive numbering := Undecided | Manual | Automatic.

Definition format_app (a : str) (r : outcome str) : outcome str :=
  s ← r; Returns (a ++ s).

Fixpoint format_go (nb : numbering) (tpl arg : str) : outcome str :=
  match tpl with
  | [] => Returns []
  | "{"%char :: "{"%char :: rest => format_app "{" (format_go nb rest arg)
  | "}"%char :: "}"%char :: rest => format_app "}" (format_go nb rest arg)
  | "{"%char :: "0"%char :: "}"%char :: rest =>
      match nb with
      | Automatic =>
          Raises (ValueError
            "cannot switch from automatic field numbering to manual field specification")
      | _ => format_app arg (format_go Manual rest arg)
      end
  | "{"%char :: "}"%char :: rest =>
      match nb with
      | Manual =>
          Raises (ValueError
            "cannot switch from manual field specification to automatic field numbering")
      | Automatic => Unmodelled (* IndexError: a second argument is needed *)
      | Undecided => format_app arg (format_go Automatic rest arg)
      end
  | ["{"%char] => Raises (ValueError "Single '{' encountered in format string")
  | "{"%char :: _ => Unmodelled
  | "}"%char :: _ => Raises (ValueError "Single '}' encountered in format string")
  | c :: rest => format_app [c] (format_go nb rest arg)
  end.

Definition format (tpl arg : str) : outcome str :=
  format_go Undecided tpl arg.

End PyStr.

Example rfind_last : PyStr.rfind "a  b  c" "  " = 4%Z.
Proof. reflexivity. Qed.
Example rfind_three_spaces : PyStr.rfind "abc   def" "  " = 4%Z.
Proof. reflexivity. Qed.
Example rfind_missing : PyStr.rfind "abc" "/" = (-1)%Z.
Proof. reflexivity. Qed.
Example rfind_empty : PyStr.rfind "abc" "" = 3%Z.
Proof. reflexivity. Qed.
Example slice_to_minus_one : PyStr.slice_to "abc" (-1) = "ab".
Proof. reflexivity. Qed.
Example slice_from_one : PyStr.slice_from "abc" 1 = "bc".
Proof. reflexivity. Qed.
Example split_lines : PyStr.split ("a" ++ [PyStr.nl] ++ [PyStr.nl] ++ "b" ++ [PyStr.nl]) PyStr.nl = ["a"; ""; "b"; ""].
Proof. reflexivity. Qed.
Example split_empty : PyStr.split "" "," = [""].
Proof. reflexivity. Qed.
Example replace_star : PyStr.replace "https://host/*?k=v" "*" "{0}" = "https://host/{0}?k=v".
Proof. reflexivity. Qed.
Example format_one : PyStr.format "https://host/{0}?k=v" "./LICENSE" = Returns "https://host/./LICENSE?k=v".
Proof. reflexivity. Qed.
Example str_of_Z_404 : PyStr.str_of_Z 404 = "404".
Proof. reflexivity. Qed.

(** ** hashlib.md5

    The MD5 function of RFC 1321 on 32-bit words held in [Z], and the part
    of the [hashlib] object interface that the program uses: [md5()],
    [update(chunk)] and [hexdigest()].  Feeding an object chunk by chunk is
    the same as feeding it the concatenation, so the object is modelled by
    the bytes it has been fed. *)

Module MD5.
Local Open Scope Z_scope.

Definition mask32 (x : Z) : Z := Z.land x 0xffffffff.
Definition not32 (x : Z) : Z := Z.lxor x 0xffffffff.
Definition rotl32 (x c : Z) : Z :=
  mask32 (Z.lor (Z.shiftl x c) (Z.shiftr x (32 - c))).

Definition T : list Z :=
  [
    0xd76aa478; 0xe8c7b756; 0x242070db; 0xc1bdceee;
    0xf57c0faf; 0x4787c62a; 0xa8304613; 0xfd469501;
    0x698098d8; 0x8b44f7af; 0xffff5bb1; 0x895cd7be;
    0x6b901122; 0xfd987193; 0xa679438e; 0x49b40821;
    0xf61e2562; 0xc040b340; 0x265e5a51; 0xe9b6c7aa;
    0xd62f105d; 0x02441453; 0xd8a1e681; 0xe7d3fbc8;
    0x21e1cde6; 0xc33707d6; 0xf4d50d87; 0x455a14ed;
    0xa9e3e905; 0xfcefa3f8; 0x676f02d9; 0x8d2a4c8a;
    0xfffa3942; 0x8771f681; 0x6d9d6122; 0xfde5380c;
    0xa4beea44; 0x4bdecfa9; 0xf6bb4b60; 0xbebfbc70;
    0x289b7ec6; 0xeaa127fa; 0xd4ef3085; 0x04881d05;
    0xd9d4d039; 0xe6db99e5; 0x1fa27cf8; 0xc4ac5665;
    0xf4292244; 0x432aff97; 0xab9423a7; 0xfc93a039;
    0x655b59c3; 0x8f0ccc92; 0xffeff47d; 0x85845dd1;
    0x6fa87e4f; 0xfe2ce6e0; 0xa3014314; 0x4e0811a1;
    0xf7537e82; 0xbd3af235; 0x2ad7d2bb; 0xeb86d391
  ].

Definition shifts : list Z :=
  [ 7; 12; 17; 22; 7; 12; 17; 22; 7; 12; 17; 22; 7; 12; 17; 22;
    5; 9; 14; 20; 5; 9; 14; 20; 5; 9; 14; 20; 5; 9; 14; 20;
    4; 11; 16; 23; 4; 11; 16; 23; 4; 11; 16; 23; 4; 11; 16; 23;
    6; 10; 15; 21; 6; 10; 15; 21; 6; 10; 15; 21; 6; 10; 15; 21 ].

Record digest_state := Digest { rA : Z; rB : Z; rC : Z; rD : Z }.

Definition init : digest_state :=
  Digest 0x67452301 0xefcdab89 0x98badcfe 0x10325476.

(** One of the 64 operations of a block, on the block's 16 words [M]. *)
Definition operation (M : list Z) (st : digest_state) (i : nat) : digest_state :=
  let '(Digest a b c d) := st in
  let '(f, g) :=
    if (i <? 16)%nat then (Z.lor (Z.land b c) (Z.land (not32 b) d), i)
    else if (i <? 32)%nat then (Z.lor (Z.land d b) (Z.land (not32 d) c), ((5 * i + 1) mod 16)%nat)
    else if (i <? 48)%nat then (Z.lxor (Z.lxor b c) d, ((3 * i + 5) mod 16)%nat)
    else (Z.lxor c (Z.lor b (not32 d)), ((7 * i) mod 16)%nat) in
  let f' := mask32 (f + a + nth i T 0 + nth g M 0) in
  Digest d (mask32 (b + rotl32 f' (nth i shifts 0))) b c.

Definition word_of_bytes (bs : list Z) : Z :=
  foldr (fun b acc => b + 256 * acc) 0 bs.

Fixpoint words (n : nat) (bs : list Z) : list Z :=
  match n with
  | O => []
  | S n => word_of_bytes (take 4 bs) :: words n (drop 4 bs)
  end.

Definition process_block (st : digest_state) (block : list Z) : digest_state :=
  let '(Digest a b c d) := foldl (operation (words 16 block)) st (seq 0 64) in
  Digest (mask32 (rA st + a)) (mask32 (rB st + b))
         (mask32 (rC st + c)) (mask32 (rD st + d)).

Fixpoint process (n : nat) (st : digest_state) (bs : list Z) : digest_state :=
  match n with
  | O => st
  | S n => process n (process_block st (take 64 bs)) (drop 64 bs)
  end.

Definition le_bytes (n : nat) (x : Z) : list Z :=
  map (fun k => Z.land (Z.shiftr x (8 * Z.of_nat k)) 0xff) (seq 0 n).

Definition pad (msg : list Z) : list Z :=
  let len := Z.of_nat (length msg) in
  msg ++ [0x80] ++ replicate (Z.to_nat ((55 - len) mod 64)) 0
      ++ le_bytes 8 (Z.land (8 * len) 0xffffffffffffffff).

Definition digest (msg : bytes) : list Z :=
  let padded := pad (map (fun b => Z.of_N (Byte.to_N b)) msg) in
  let '(Digest a b c d) := process (length padded / 64)%nat init padded in
  le_bytes 4 a ++ le_bytes 4 b ++ le_bytes 4 c ++ le_bytes 4 d.

Definition hex_digit (x : Z) : char :=
  nth (Z.to_nat x) "0123456789abcdef"%str "0"%char.

Definition hex (bs : list Z) : str :=
  flat_map (fun b => [hex_digit (Z.shiftr b 4); hex_digit (Z.land b 0xf)]) bs.

(** The hash object: the bytes fed so far. *)
Record md5_object := Md5 { fed : bytes }.

Definition md5 : md5_object := Md5 [].
Definition update (h : md5_object) (chunk : bytes) : md5_object := Md5 (fed h ++ chunk).
Definition hexdigest (h : md5_object) : str := hex (digest (fed h)).

End MD5.

Example md5_empty : MD5.hexdigest MD5.md5 = "d41d8cd98f00b204e9800998ecf8427e".
Proof. vm_compute. reflexivity. Qed.
Example md5_abc : MD5.hexdigest (MD5.update MD5.md5 "abc"%bytes) = "900150983cd24fb0d6963f7d28e17f72".
Proof. vm_compute. reflexivity. Qed.
Example md5_two_blocks :
  MD5.hexdigest (MD5.update MD5.md5
    "12345678901234567890123456789012345678901234567890123456789012345678901234567890"%bytes)
  = "57edf4a22be3c955ac49da2e2107b67a".
Proof. vm_compute. reflexivity. Qed.

(** ** Dicts in insertion order *)

Module Dict.
Section dict.
Context {V : Type}.

Definition keys (d : list (str * V)) : list str := d.*1.

(** [d[k]] *)
Fixpoint get (d : list (str * V)) (k : str) : option V :=
  match d with
  | [] => None
  | (k', v) :: d' => if decide (k' = k) then Some v else get d' k
  end.

(** [d[k] = v]: a key that is present keeps its place. *)
Fixpoint set (d : list (str * V)) (k : str) (v : V) : list (str * V) :=
  match d with
  | [] => [(k, v)]
  | (k', v') :: d' => if decide (k' = k) then (k, v) :: d' else (k', v') :: set d' k v
  end.
End dict.
End Dict.

(** ** The catalogue *)

Definition FILES : list (str * list str) :=
  [ (".", ["LICENSE"; "USE_POLICY.md"; "tokenizer.model"; "tokenizer_checklist.chk"]);
    ("llama-2-7b", ["consolidated.00.pth"; "params.json"; "checklist.chk"]);
    ("llama-2-7b-chat", ["consolidated.00.pth"; "params.json"; "checklist.chk"]);
    ("llama-2-13b",
      ["consolidated.00.pth"; "consolidated.01.pth"; "params.json"; "checklist.chk"]);
    ("llama-2-13b-chat",
      ["consolidated.00.pth"; "consolidated.01.pth"; "params.json"; "checklist.chk"]);
    ("llama-2-70b",
      ["consolidated.00.pth"; "consolidated.01.pth"; "consolidated.02.pth";
       "consolidated.03.pth"; "consolidated.04.pth"; "consolidated.05.pth";
       "consolidated.06.pth"; "consolidated.07.pth"; "params.json"; "checklist.chk"]);
    ("llama-2-70b-chat",
      ["consolidated.00.pth"; "consolidated.01.pth"; "consolidated.02.pth";
       "consolidated.03.pth"; "consolidated.04.pth"; "consolidated.05.pth";
       "consolidated.06.pth"; "consolidated.07.pth"; "params.json"; "checklist.chk"]) ].

Definition user_entry : list (str * str) :=
  [ ("7B", "llama-2-7b");
    ("13B", "llama-2-13b");
    ("70B", "llama-2-70b");
    ("7B-chat", "llama-2-7b-chat");
    ("13B-chat", "llama-2-13b-chat");
    ("70B-chat", "llama-2-70b-chat") ].

(** ** FileInfo and the progress display *)

Record FileInfo := mkFileInfo {
  file_url : str;
  file_name : str;
  file_path : str;
  progress_task : nat   (* TaskID *)
}.

(** [FileInfo.__str__] *)
Definition FileInfo_str (fi : FileInfo) : str := file_path fi.

(** One line of the [rich] display.  [Progress.update] leaves a field alone
    when its argument is [None]. *)
Record bar := mkBar {
  description : str;
  total : option Z;
  completed : Z;
  started : bool
}.

Module Progress.
(** [progress.add_task(description, total=total, start=start)]: the new
    task's id is the number of tasks added before. *)
Definition add_task (p : list bar) (d : str) (t : Z) (start : bool) : nat * list bar :=
  (length p, p ++ [mkBar d (Some t) 0 start]).

Definition update_total (p : list bar) (id : nat) (t : option Z) : list bar :=
  match t with
  | Some t => alter (fun b => mkBar (description b) (Some t) (completed b) (started b)) id p
  | None => p
  end.

Definition start_task (p : list bar) (id : nat) : list bar :=
  alter (fun b => mkBar (description b) (total b) (completed b) true) id p.

Definition advance (p : list bar) (id : nat) (n : Z) (d : str) : list bar :=
  alter (fun b => mkBar d (total b) (completed b + n) (started b)) id p.

Definition update_description (p : list bar) (id : nat) (d : str) : list bar :=
  alter (fun b => mkBar d (total b) (completed b) (started b)) id p.
End Progress.

(** ** download_files: building the file list (lines 201-220) *)

Definition queued (file : str) : str := "[blue]Queued [b]" ++ file ++ "[/b]".

Definition destination (base_path model file : str) : str :=
  if decide (model = ".") then base_path ++ "/" ++ file
  else base_path ++ "/" ++ model ++ "/" ++ file.

(** The body of the inner loop: one [FileInfo] appended to [file_list]. *)
Definition add_file (url base_path model file : str)
    (acc : list FileInfo * list bar) : outcome (list FileInfo * list bar) :=
  let '(file_list, progress) := acc in
  let file_path := destination base_path model file in
  u ← PyStr.format url (model ++ "/" ++ file);
  let '(id, progress) := Progress.add_task progress (queued file) 100 false in
  Returns (file_list ++ [mkFileInfo u file file_path id], progress).

(** [for file in FILES[model]: ...] *)
Fixpoint add_files (url base_path model : str) (files : list str)
    (acc : list FileInfo * list bar) : outcome (list FileInfo * list bar) :=
  match files with
  | [] => Returns acc
  | file :: files' =>
      acc ← add_file url base_path model file acc;
      add_files url base_path model files' acc
  end.

(** [for model in FILES.keys(): if model in models: ...]; the dict is
    walked as its (key, value) pairs, so [FILES[model]] is the value. *)
Fixpoint add_models (catalog : list (str * list str)) (models : list str)
    (url base_path : str) (acc : list FileInfo * list bar)
    : outcome (list FileInfo * list bar) :=
  match catalog with
  | [] => Returns acc
  | (model, files) :: catalog' =>
      acc ← (if bool_decide (model ∈ models)
              then add_files url base_path model files acc
              else Returns acc);
      add_models catalog' models url base_path acc
  end.

Definition build_file_list (models : list str) (url base_path : str)
    : outcome (list FileInfo * list bar) :=
  add_models FILES models url base_path ([], []).

(** ** main_prompt: from the user's answer to the list of groups (lines 235-247) *)

(** The directories that exist, so that [mkdir] is visible: [is_dir] looks
    a path up and [mkdir] adds it.  [Path(p).mkdir()] raises when [p] is
    a regular file, when its parent is missing or when it may not be
    written to; [mkdir_error p] is the exception, if any. *)
Definition model_dir (base model : str) : str := base ++ "/" ++ model.

Fixpoint add_requested (mkdir_error : str -> option exn) (base : str)
    (models_list : list str) (download_list : list str) (dirs : gset str)
    : gset str * outcome (list str) :=
  match models_list with
  | [] => (dirs, Returns download_list)
  | model :: rest =>
      match Dict.get user_entry model with
      | None => (dirs, Raises (ValueError (model ++ " is an unavailable option.")))
      | Some group =>
          let download_list := download_list ++ [group] in
          if bool_decide (model_dir base group ∈ dirs)
          then add_requested mkdir_error base rest download_list dirs
          else match mkdir_error (model_dir base group) with
               | Some e => (dirs, Raises e)
               | None =>
                   add_requested mkdir_error base rest download_list
                     (dirs ∪ {[ model_dir base group ]})
               end
      end
  end.

Definition requested_models (models : str) : list str :=
  if bool_decide (length models = 0%nat) then Dict.keys user_entry
  else PyStr.split models ",".

Definition download_list_of (mkdir_error : str -> option exn) (base : str)
    (models_list : list str) (dirs : gset str) : gset str * outcome (list str) :=
  add_requested mkdir_error base models_list ["."] dirs.

(** The files [main_prompt] asks [download_files] for, when the user's
    answer splits into [models_list]. *)
Definition resolve (mkdir_error : str -> option exn) (base url : str)
    (models_list : list str) (dirs : gset str) : outcome (list FileInfo) :=
  download_list ← (download_list_of mkdir_error base models_list dirs).2;
  '(file_list, _) ← build_file_list download_list url base;
  Returns file_list.

(** [main_prompt] up to the file list: the [*] of the URL from the email
    becomes the placeholder, and the answer to the second prompt is split
    at the commas (or stands for every option when it is empty). *)
Definition main_prompt_files (mkdir_error : str -> option exn) (base url models : str)
    (dirs : gset str) : outcome (list FileInfo) :=
  let url := PyStr.replace url "*" "{0}" in
  resolve mkdir_error base url (requested_models models) dirs.

(** A file system on which every directory can be made, and one on which
    a regular file stands where the directory of the 7B group should go. *)
Definition writable : str -> option exn := fun _ => None.
Definition file_exists : exn := OSError "[Errno 17] File exists: '/data/llama-2-7b'".
Definition file_in_the_way : str -> option exn :=
  fun p => if decide (p = "/data/llama-2-7b") then Some file_exists else None.

Example main_prompt_two_models :
  file_path <$> (match main_prompt_files writable "/data" "https://host/*?key=1" "7B,13B-chat" ∅ with
                 | Returns l => l | _ => [] end)
  = [ "/data/LICENSE"; "/data/USE_POLICY.md"; "/data/tokenizer.model";
      "/data/tokenizer_checklist.chk"; "/data/llama-2-7b/consolidated.00.pth";
      "/data/llama-2-7b/params.json"; "/data/llama-2-7b/checklist.chk";
      "/data/llama-2-13b-chat/consolidated.00.pth";
      "/data/llama-2-13b-chat/consolidated.01.pth";
      "/data/llama-2-13b-chat/params.json"; "/data/llama-2-13b-chat/checklist.chk" ].
Proof. vm_compute. reflexivity. Qed.

Example main_prompt_every_model :
  length (match main_prompt_files writable "/data" "https://host/*" "" ∅ with
          | Returns l => l | _ => [] end) = 38%nat.
Proof. vm_compute. reflexivity. Qed.

Example resolve_7b :
  file_path <$> (match resolve writable "/data" "https://host/{0}" ["7B"] ∅ with
                 | Returns l => l | _ => [] end)
  = [ "/data/LICENSE"; "/data/USE_POLICY.md"; "/data/tokenizer.model";
      "/data/tokenizer_checklist.chk"; "/data/llama-2-7b/consolidated.00.pth";
      "/data/llama-2-7b/params.json"; "/data/llama-2-7b/checklist.chk" ].
Proof. vm_compute. reflexivity. Qed.

Example resolve_7b_urls :
  file_url <$> (match resolve writable "/data" "https://host/{0}" ["7B"] ∅ with
                | Returns l => l | _ => [] end)
  = [ "https://host/./LICENSE"; "https://host/./USE_POLICY.md";
      "https://host/./tokenizer.model"; "https://host/./tokenizer_checklist.chk";
      "https://host/llama-2-7b/consolidated.00.pth";
      "https://host/llama-2-7b/params.json"; "https://host/llama-2-7b/checklist.chk" ].
Proof. vm_compute. reflexivity. Qed.

Example resolve_unknown :
  resolve writable "/data" "https://host/{0}" ["7B"; "8B"; "9B"] ∅
  = Raises (ValueError "8B is an unavailable option.").
Proof. vm_compute. reflexivity. Qed.

(** [mkdir] comes before the next name is looked at: with a regular file
    at [/data/llama-2-7b] the answer [7B,8B] ends with the error of
    [mkdir], and without it at the name [8B]. *)
Example resolve_mkdir_fails :
  resolve file_in_the_way "/data" "https://host/{0}" ["7B"; "8B"] ∅ = Raises file_exists
  ∧ resolve writable "/data" "https://host/{0}" ["7B"; "8B"] ∅
    = Raises (ValueError "8B is an unavailable option.").
Proof. split; vm_compute; reflexivity. Qed.

(** ** The download engine *)

(** What the server answers to a GET.  [body] is the sequence of chunks
    that [response.content.iter_chunked(1024)] yields, and [body_error]
    the exception with which the iteration ends instead of stopping, if
    the connection breaks. *)
Record Response := mkResponse {
  status : Z;
  reason : str;
  content_length : option Z;
  body : list bytes;
  body_error : option exn
}.

(** What is outside the program during a download.  The destination is
    a buffered file: [local_file.write] hands the bytes to the file
    object, which writes them to the disk when its buffer is full, and at
    the latest when the file is closed at the end of the [async with].
    [write_error path k] is the exception that the [k]-th write to [path]
    meets, and for [k] the number of chunks of the body, the exception
    that the flush meets when the file is closed.  [loop_record] is the
    text of the DEBUG record that [asyncio.run] writes when it makes its
    event loop (["Using selector: EpollSelector"] on Linux): it goes
    through the root logger, which line 15 sets up at the level DEBUG. *)
Record World := mkWorld {
  http_get : str -> exn + Response;        (* session.get(url, headers=header) *)
  open_error : str -> option exn;          (* aiofiles.open(path, "wb") *)
  write_error : str -> nat -> option exn;  (* the k-th local_file.write to path; the close *)
  loop_record : str                        (* logged by asyncio.run *)
}.

Inductive level := DEBUG | INFO | ERROR.

(** What the downloads change: files, the progress display and the log.
    [files] gives for a path the bytes that have been put into the file:
    what the file holds once it has been closed.  As long as a
    destination is open, and after a write or the close has failed, the
    last of these bytes may still be in the buffer of the file object and
    not on the disk. *)
Record state := mkState {
  files : gmap str bytes;
  bars : list bar;
  logged : list (level * str)
}.

Definition repr_size (f_size : option Z) : str :=
  match f_size with
  | Some n => PyStr.str_of_Z n
  | None => "None"
  end.

Definition downloading (f_name : str) : str :=
  "[yellow]Downloading [b]" ++ f_name ++ "[/b]".
Definition finished (f_name : str) (f_size : option Z) : str :=
  "[green][b]Finished " ++ f_name ++ "[/b] | " ++ repr_size f_size.
Definition unable (f_name : str) (st : Z) : str :=
  "[red]Unable to download [b]" ++ f_name ++ "[/b] - " ++ PyStr.str_of_Z st.
Definition completed_message (response : Response) (f_name : str) : str :=
  PyStr.str_of_Z (status response) ++ " | " ++ f_name ++ " | "
    ++ repr_size (content_length response) ++ " bytes completed.".
Definition failure_message (response : Response) (fi : FileInfo) : str :=
  PyStr.str_of_Z (status response) ++ " | " ++ file_name fi ++ [PyStr.nl]
    ++ reason response ++ [PyStr.nl] ++ file_url fi.

(** [aiofiles.open(file_info.file_path, "wb")] has succeeded: the file
    exists and is empty. *)
Definition opened_wb (fi : FileInfo) (σ : state) : state :=
  mkState (<[file_path fi := []]> (files σ)) (bars σ) (logged σ).

(** [progress.update(task, total=f_size); progress.start_task(task)] *)
Definition begin (fi : FileInfo) (response : Response) (σ : state) : state :=
  mkState (files σ)
    (Progress.start_task
       (Progress.update_total (bars σ) (progress_task fi) (content_length response))
       (progress_task fi))
    (logged σ).

(** [await local_file.write(data); progress.update(task, advance=len(data), description=...)]:
    the chunk is put into the file (that is, into its buffer). *)
Definition written (fi : FileInfo) (data : bytes) (σ : state) : state :=
  mkState (<[file_path fi := default [] (files σ !! file_path fi) ++ data]> (files σ))
    (Progress.advance (bars σ) (progress_task fi) (Z.of_nat (length data))
       (downloading (file_name fi)))
    (logged σ).

(** The end of the [if] branch, the file closed, then the last
    [progress.update]. *)
Definition succeed (fi : FileInfo) (response : Response) (σ : state) : state :=
  mkState (files σ)
    (Progress.update_description (bars σ) (progress_task fi)
       (finished (file_name fi) (content_length response)))
    (logged σ ++ [(INFO, completed_message response (file_name fi))]).

(** The [else] branch, the file closed, then the last [progress.update]. *)
Definition fail (fi : FileInfo) (response : Response) (σ : state) : state :=
  mkState (files σ)
    (Progress.update_description (bars σ) (progress_task fi)
       (unable (file_name fi) (status response)))
    (logged σ ++ [(ERROR, failure_message response fi)]).

(** [async for data in response.content.iter_chunked(1024): ...], at the
    [k]-th chunk. *)
Fixpoint stream (w : World) (fi : FileInfo) (k : nat) (chunks : list bytes)
    (σ : state) : exn + state :=
  match chunks with
  | [] => inr σ
  | data :: rest =>
      match write_error w (file_path fi) k with
      | Some e => inl e
      | None => stream w fi (S k) rest (written fi data σ)
      end
  end.

(** [_file_downloader], run from start to end without interleaving.  In
    the [else] branch nothing has been written, and the close has nothing
    to flush. *)
Definition _file_downloader (w : World) (fi : FileInfo) (σ : state) : exn + state :=
  match http_get w (file_url fi) with
  | inl e => inl e
  | inr response =>
      match open_error w (file_path fi) with
      | Some e => inl e
      | None =>
          let σ := opened_wb fi σ in
          if (status response =? 200)%Z then
            match stream w fi 0 (body response) (begin fi response σ) with
            | inl e => inl e
            | inr σ =>
                match body_error response with
                | Some e => inl e
                | None =>
                    match write_error w (file_path fi) (length (body response)) with
                    | Some e => inl e
                    | None => inr (succeed fi response σ)
                    end
                end
            end
          else inr (fail fi response σ)
      end
  end.

(** *** The coroutine, between two suspension points

    [asyncio] runs one coroutine at a time and switches at an [await].
    A coroutine of [_file_downloader] is either not started, or inside the
    [async for] before its [k]-th chunk, or at the end of its branch (the
    record of its end is logged; the file and the session are being
    closed, and the last [progress.update] is still to come), or has
    returned. *)
Inductive coroutine :=
  | Created
  | Streaming (response : Response) (k : nat) (rest : list bytes)
  | Closing (response : Response)
  | Done.

(** [logging.info(...)] at the end of the [if] branch, [logging.error(...)]
    in the [else] branch. *)
Definition announce (fi : FileInfo) (response : Response) (σ : state) : state :=
  mkState (files σ) (bars σ)
    (logged σ ++ [if (status response =? 200)%Z
                  then (INFO, completed_message response (file_name fi))
                  else (ERROR, failure_message response fi)]).

(** The last [progress.update], with the [description] of the branch
    taken. *)
Definition conclude (fi : FileInfo) (response : Response) (σ : state) : state :=
  mkState (files σ)
    (Progress.update_description (bars σ) (progress_task fi)
       (if (status response =? 200)%Z
        then finished (file_name fi) (content_length response)
        else unable (file_name fi) (status response)))
    (logged σ).

Definition step (w : World) (fi : FileInfo) (c : coroutine) (σ : state)
    : exn + (coroutine * state) :=
  match c with
  | Created =>
      match http_get w (file_url fi) with
      | inl e => inl e
      | inr response =>
          match open_error w (file_path fi) with
          | Some e => inl e
          | None =>
              let σ := opened_wb fi σ in
              if (status response =? 200)%Z
              then inr (Streaming response 0 (body response), begin fi response σ)
              else inr (Closing response, announce fi response σ)
          end
      end
  | Streaming response k (data :: rest) =>
      match write_error w (file_path fi) k with
      | Some e => inl e
      | None => inr (Streaming response (S k) rest, written fi data σ)
      end
  | Streaming response k [] =>
      match body_error response with
      | Some e => inl e
      | None => inr (Closing response, announce fi response σ)
      end
  | Closing response =>
      if (status response =? 200)%Z then
        match write_error w (file_path fi) (length (body response)) with
        | Some e => inl e
        | None => inr (Done, conclude fi response σ)
        end
      else inr (Done, conclude fi response σ)
  | Done => inr (Done, σ)
  end.

(** *** asyncio.gather and asyncio.run

    The order in which the event loop resumes the coroutines depends on the
    network; it is a parameter, the [schedule]: a list of positions in the
    task list.  A position whose coroutine has returned (or that names no
    task) is passed over.  [gather] is called without [return_exceptions]:
    the first exception ends [_download].  [BatchRaises e i schedule tasks σ]:
    the task at position [i] has raised [e], with [schedule] left. *)
Inductive batch :=
  | BatchReturns (σ : state)
  | BatchRaises (e : exn) (i : nat) (schedule : list nat)
      (tasks : list (FileInfo * coroutine)) (σ : state)
  | BatchPending (tasks : list (FileInfo * coroutine)) (σ : state).

Definition is_done (t : FileInfo * coroutine) : bool :=
  match t.2 with Done => true | _ => false end.

Fixpoint gather (w : World) (schedule : list nat)
    (tasks : list (FileInfo * coroutine)) (σ : state) : batch :=
  match schedule with
  | [] => if forallb is_done tasks then BatchReturns σ else BatchPending tasks σ
  | i :: schedule' =>
      match tasks !! i with
      | None => gather w schedule' tasks σ
      | Some (fi, c) =>
          match step w fi c σ with
          | inl e => BatchRaises e i schedule' tasks σ
          | inr (c', σ') => gather w schedule' (<[i := (fi, c')]> tasks) σ'
          end
      end
  end.

(** [_download]: every file of the list gets a coroutine, and [gather]
    runs them. *)
Definition _download (w : World) (schedule : list nat) (file_list : list FileInfo)
    (σ : state) : batch :=
  gather w schedule ((fun fi => (fi, Created)) <$> file_list) σ.

(** When [_download] has raised, [asyncio.run] cancels the coroutines
    that have not ended, and raises the exception again.  The event loop
    takes some turns to get there, in which the other coroutines still
    run as the rest of the schedule says; an exception of one of them is
    not raised again ([gather] has its exception).  [raised] gives the
    exceptions of the positions whose coroutines have ended with one. *)
Fixpoint wind_down (w : World) (schedule : list nat) (raised : gmap nat exn)
    (tasks : list (FileInfo * coroutine)) (σ : state)
    : gmap nat exn * list (FileInfo * coroutine) * state :=
  match schedule with
  | [] => (raised, tasks, σ)
  | i :: schedule' =>
      match raised !! i, tasks !! i with
      | None, Some (fi, c) =>
          match step w fi c σ with
          | inl e => wind_down w schedule' (<[i := e]> raised) tasks σ
          | inr (c', σ') => wind_down w schedule' raised (<[i := (fi, c')]> tasks) σ'
          end
      | _, _ => wind_down w schedule' raised tasks σ
      end
  end.

(** How a task has ended when [download_files] raises: it has returned,
    it has raised, or it was cancelled on the way. *)
Inductive ending := Returned | Failed (e : exn) | Cancelled.

Definition ending_of (raised : gmap nat exn) (i : nat) (t : FileInfo * coroutine) : ending :=
  match raised !! i with
  | Some e => Failed e
  | None => if is_done t then Returned else Cancelled
  end.

(** [download_files].  When it raises, the caller has the exception and
    the display as it was left; [endings] tells how each task of the file
    list has ended.  What the disk holds of the destinations that were
    open is left out. *)
Inductive downloaded :=
  | DownloadReturns (file_list : list FileInfo) (σ : state)
  | DownloadRaises (e : exn) (endings : list ending) (display : list bar)
  | DownloadPending
  | DownloadUnmodelled.

Definition download_files (w : World) (schedule : list nat)
    (models : list str) (url base_path : str)
    (disk : gmap str bytes) (logs : list (level * str)) : downloaded :=
  match build_file_list models url base_path with
  | Returns (file_list, progress) =>
      let σ := mkState disk progress (logs ++ [(DEBUG, loop_record w)]) in
      match _download w schedule file_list σ with
      | BatchReturns σ => DownloadReturns file_list σ
      | BatchRaises e i schedule tasks σ =>
          let '(raised, tasks, σ) := wind_down w schedule {[ i := e ]} tasks σ in
          DownloadRaises e (imap (ending_of raised) tasks) (bars σ)
      | BatchPending _ _ => DownloadPending
      end
  | Raises e => DownloadRaises e [] []
  | Unmodelled => DownloadUnmodelled
  end.

(** ** verify_md5

    The progress display of [verify_md5] is left out: its calls stand
    inside the [try] and change nothing of what is logged, printed or
    raised. *)

(** A file that [verify_md5] opens in binary mode.  [Unreadable e]: [open]
    raises [e].  [Readable data error]: the file opens, the calls of
    [f.read(4096)] deliver [data], and then the next call meets the end of
    the file, or raises [error] (so does a failing [stat], with no data). *)
Inductive target :=
  | Unreadable (e : exn)
  | Readable (data : bytes) (error : option exn).

(** What is outside the program during the verification. *)
Record Disk := mkDisk {
  read_text : str -> exn + str;    (* open(file, "r", encoding="utf-8").read() *)
  read_binary : str -> target;     (* open(file_path, "rb") and its reads *)
  glob : str -> list str           (* str(p) for p in Path(chk_folder).glob('**/*') *)
}.

Definition exn_message (e : exn) : str :=
  match e with
  | ValueError msg | OSError msg | ClientError msg => msg
  | UnboundLocalError var =>
      "cannot access local variable '" ++ var ++ "' where it is not associated with a value"
  end.

Definition chunk_size : nat := 4096.
Arguments chunk_size : simpl never.

(** The values of [chunk] in [while chunk := f.read(4096)], for a file
    object with [f] left to read; every turn consumes at least one byte,
    so [length f] turns are enough. *)
Fixpoint read_chunks_go (fuel : nat) (f : bytes) : list bytes :=
  match fuel with
  | O => []
  | S fuel =>
      let chunk := take chunk_size f in
      if bool_decide (chunk = []) then []
      else chunk :: read_chunks_go fuel (drop chunk_size f)
  end.

Definition read_chunks (f : bytes) : list bytes := read_chunks_go (length f) f.

(** [md5_hash = hashlib.md5()] followed by the [while] loop. *)
Definition hash_file (data : bytes) : MD5.md5_object :=
  foldl MD5.update MD5.md5 (read_chunks data).

(** One line of a manifest (the body of [for md in md_details]). *)
Definition add_record (path : str) (md_list : list (str * str)) (md : str)
    : list (str * str) :=
  if bool_decide (0 < length md)%nat then
    let file_name := PyStr.slice_to md (PyStr.rfind md "  ") in
    let file_path := path ++ "/" ++ PyStr.slice_from md (PyStr.rfind md "  " + 2) in
    Dict.set md_list file_path file_name
  else md_list.

(** One manifest, once it has been read. *)
Definition add_manifest (file text : str) (md_list : list (str * str))
    : list (str * str) :=
  let md_details := PyStr.split text PyStr.nl in
  let path := PyStr.slice_to file (PyStr.rfind file "/") in
  foldl (add_record path) md_list md_details.

(** [for file in check_files: ...], with the manifests opened so far. *)
Fixpoint read_manifests (d : Disk) (check_files : list str)
    (md_list : list (str * str)) (opened : list str)
    : list str * (exn + list (str * str)) :=
  match check_files with
  | [] => (opened, inr md_list)
  | file :: rest =>
      let file := PyStr.replace file PyStr.backslash "/" in
      match read_text d file with
      | inl e => (opened ++ [file], inl e)
      | inr text => read_manifests d rest (add_manifest file text md_list) (opened ++ [file])
      end
  end.

Record verification := mkVerification {
  v_logged : list (level * str);
  v_printed : list str;
  v_raised : option exn
}.

Definition ok_line (file_path : str) : str := file_path ++ " is OK".
Definition mismatch_line (file_path md_origin actual : str) : str :=
  file_path ++ " | " ++ md_origin ++ " != " ++ actual.

(** [for file_path, md_origin in md_list.items(): ...].  [md5_hash] is a
    variable of the function: it keeps its value from one turn to the
    next, and has none before its first assignment. *)
Fixpoint check_targets (d : Disk) (md_list : list (str * str))
    (md5_hash : option MD5.md5_object)
    (log : list (level * str)) (printed : list str) : verification :=
  match md_list with
  | [] => mkVerification log printed None
  | (file_path, md_origin) :: rest =>
      let '(md5_hash, log) :=
        match read_binary d file_path with
        | Unreadable e => (md5_hash, log ++ [(ERROR, exn_message e)])
        | Readable data None => (Some (hash_file data), log)
        | Readable data (Some e) => (Some (hash_file data), log ++ [(ERROR, exn_message e)])
        end in
      match md5_hash with
      | None => mkVerification log printed (Some (UnboundLocalError "md5_hash"))
      | Some h =>
          if bool_decide (MD5.hexdigest h = md_origin) then
            let info := ok_line file_path in
            check_targets d rest md5_hash (log ++ [(INFO, info)]) (printed ++ [info])
          else
            let info := mismatch_line file_path md_origin (MD5.hexdigest h) in
            check_targets d rest md5_hash (log ++ [(ERROR, info)]) (printed ++ [info])
      end
  end.

Definition is_chk (file : str) : bool := PyStr.contains file ".chk".

(** The choice of [retrieve] (lines 103-106). *)
Definition retrieved (d : Disk) (chk_folder : str) (file_info : list FileInfo) : list str :=
  if bool_decide (0 < length file_info)%nat then FileInfo_str <$> file_info
  else glob d chk_folder.

(** The rest of [verify_md5], from [check_files] on: the manifests it
    opened, and the outcome of the verification. *)
Definition verify_files (d : Disk) (retrieve : list str) : list str * verification :=
  let check_files := filter (fun file => is_chk file = true) retrieve in
  match read_manifests d check_files [] [] with
  | (opened, inl e) => (opened, mkVerification [] [] (Some e))
  | (opened, inr md_list) => (opened, check_targets d md_list None [] [])
  end.

(** [verify_md5(chk_folder, file_info)] *)
Definition verify_md5 (d : Disk) (chk_folder : str) (file_info : list FileInfo)
    : list str * verification :=
  verify_files d (retrieved d chk_folder file_info).

(** ASCII [str.lower], to say that two digests differ in letter case only. *)
Definition lower_char (c : char) : char :=
  if ((65 <=? c) && (c <=? 90))%N then (c + 32)%N else c.
Definition lower (s : str) : str := lower_char <$> s.

(** * Properties *)

(** ** Strings *)

Section pystr_facts.
Import PyStr.

Lemma startswith_prefix (s sub : str) : startswith s sub = true <-> sub `prefix_of` s.
Proof. unfold startswith. apply bool_decide_eq_true. Qed.

Lemma startswith_not_prefix (s sub : str) :
  startswith s sub = false <-> ¬ sub `prefix_of` s.
Proof. unfold startswith. apply bool_decide_eq_false. Qed.

(** [rfind_nat] returns the last position at which [sub] occurs. *)
Lemma rfind_nat_spec (s sub : str) :
  match rfind_nat s sub with
  | Some i =>
      (i ≤ length s)%nat ∧ sub `prefix_of` drop i s ∧
      ∀ j, (i < j)%nat → (j ≤ length s)%nat → ¬ sub `prefix_of` drop j s
  | None => ∀ j, (j ≤ length s)%nat → ¬ sub `prefix_of` drop j s
  end.
Proof.
  induction s as [|c s IH]; cbn [rfind_nat].
  - destruct (startswith [] sub) eqn:E.
    + apply startswith_prefix in E. split_and!; [done|done|]. cbn. lia.
    + apply startswith_not_prefix in E. intros j Hj. by rewrite drop_nil.
  - destruct (rfind_nat s sub) as [i|].
    + destruct IH as (Hi & Hp & Hlast). split_and!; [cbn; lia|done|].
      intros [|j] Hlt Hle; [lia|]. cbn in *. apply Hlast; lia.
    + destruct (startswith (c :: s) sub) eqn:E.
      * apply startswith_prefix in E. split_and!; [cbn; lia|done|].
        intros [|j] Hlt Hle; [lia|]. cbn in *. apply IH; lia.
      * apply startswith_not_prefix in E.
        intros [|j] Hle; [done|]. cbn in *. apply IH; lia.
Qed.

Lemma rfind_nat_last (s sub : str) (i : nat) :
  (i ≤ length s)%nat → sub `prefix_of` drop i s →
  (∀ j, (i < j)%nat → (j ≤ length s)%nat → ¬ sub `prefix_of` drop j s) →
  rfind_nat s sub = Some i.
Proof.
  intros Hi Hp Hlast. pose proof (rfind_nat_spec s sub) as H.
  destruct (rfind_nat s sub) as [i'|].
  - destruct H as (Hi' & Hp' & Hlast'). f_equal.
    destruct (lt_eq_lt_dec i i') as [[Hlt|Heq]|Hgt]; [|done|].
    + by destruct (Hlast i').
    + by destruct (Hlast' i).
  - by destruct (H i).
Qed.

Lemma contains_spec (s sub : str) :
  contains s sub = true <-> ∃ j, (j ≤ length s)%nat ∧ sub `prefix_of` drop j s.
Proof.
  induction s as [|c s IH]; cbn [contains].
  - rewrite orb_false_r, startswith_prefix. split.
    + intros H. exists 0%nat. done.
    + intros (j & Hj & H). by rewrite drop_nil in H.
  - rewrite orb_true_iff, startswith_prefix, IH. split.
    + intros [H|(j & Hj & H)]; [exists 0%nat; split; [lia|done]|].
      exists (S j). split; [cbn; lia|done].
    + intros ([|j] & Hj & H); [by left|]. right. exists j. split; [cbn in Hj; lia|done].
Qed.

Lemma contains_rfind_nat (s sub : str) :
  contains s sub = false <-> rfind_nat s sub = None.
Proof.
  pose proof (rfind_nat_spec s sub) as H. split.
  - intros Hc. destruct (rfind_nat s sub) as [i|]; [|done].
    destruct H as (Hi & Hp & _).
    assert (contains s sub = true) by (apply contains_spec; eauto). congruence.
  - intros Hn. rewrite Hn in H. apply not_true_is_false.
    intros (j & Hj & Hp)%contains_spec. by destruct (H j).
Qed.

(** The separator [sep], with nothing like it further right: the last
    occurrence of [sep] in [d ++ sep ++ p] is the one written. *)
Lemma rfind_nat_app (d sep p : str) :
  sep ≠ [] →
  contains (drop 1 sep ++ p) sep = false →
  rfind_nat (d ++ sep ++ p) sep = Some (length d).
Proof.
  intros Hsep Hc. apply rfind_nat_last.
  - rewrite length_app. lia.
  - rewrite drop_app_length. by apply prefix_app_r.
  - intros j Hlt Hle Hp.
    assert (contains (drop 1 sep ++ p) sep = true) as Ht; [|congruence].
    apply contains_spec. exists (j - length d - 1)%nat.
    rewrite !length_app in Hle. destruct sep as [|c sep]; [done|].
    change (drop 1 (c :: sep)) with sep in *.
    cbn [length] in Hle. rewrite length_app. split; [lia|].
    replace j with (length d + S (j - length d - 1))%nat in Hp by lia.
    by rewrite drop_app_add in Hp.
Qed.

Lemma slice_to_app (a b : str) : slice_to (a ++ b) (Z.of_nat (length a)) = a.
Proof.
  unfold slice_to, slice_index. rewrite length_app.
  destruct (Z.ltb_spec (Z.of_nat (length a)) 0); [lia|].
  rewrite Z.min_l by lia. rewrite Nat2Z.id. by rewrite take_app_length.
Qed.

Lemma slice_from_app (a b c : str) :
  slice_from (a ++ b ++ c) (Z.of_nat (length a) + Z.of_nat (length b)) = c.
Proof.
  unfold slice_from, slice_index. rewrite !length_app.
  destruct (Z.ltb_spec (Z.of_nat (length a) + Z.of_nat (length b)) 0); [lia|].
  rewrite Z.min_l by lia.
  replace (Z.to_nat (Z.of_nat (length a) + Z.of_nat (length b)))
    with (length a + length b)%nat by lia.
  by rewrite drop_app_add, drop_app_length.
Qed.

Lemma slice_to_minus_1 (s : str) : slice_to s (-1) = take (length s - 1) s.
Proof.
  unfold slice_to, slice_index. cbn [Z.ltb Z.compare]. f_equal. lia.
Qed.

Lemma slice_from_1 (s : str) : slice_from s 1 = drop 1 s.
Proof.
  unfold slice_from, slice_index. cbn [Z.ltb Z.compare].
  destruct s as [|c s]; [done|]. f_equal. cbn [length]. lia.
Qed.

End pystr_facts.

(** ** Manifest lines *)

(** Lines joined by newlines, as they stand in a manifest. *)
Fixpoint unlines (lines : list str) : str :=
  match lines with
  | [] => []
  | [l] => l
  | l :: rest => l ++ PyStr.nl :: unlines rest
  end.

Section manifest_facts.
Import PyStr.

Lemma split_no_sep (l : str) (sep : char) : sep ∉ l → split l sep = [l].
Proof.
  induction l as [|c l IH]; [done|]. intros Hn. cbn [split].
  apply not_elem_of_cons in Hn as [Hc Hl].
  destruct (N.eqb_spec c sep); [congruence|]. by rewrite IH.
Qed.

Lemma split_app_sep (l rest : str) (sep : char) :
  sep ∉ l → split (l ++ sep :: rest) sep = l :: split rest sep.
Proof.
  induction l as [|c l IH]; intros Hn; cbn [split app].
  - by rewrite N.eqb_refl.
  - apply not_elem_of_cons in Hn as [Hc Hl].
    destruct (N.eqb_spec c sep); [congruence|]. by rewrite IH.
Qed.

Lemma split_unlines (lines : list str) :
  lines ≠ [] → Forall (fun l => nl ∉ l) lines → split (unlines lines) nl = lines.
Proof.
  induction lines as [|l lines IH]; [done|]. intros _ Hall.
  apply Forall_cons in Hall as [Hl Hall]. destruct lines as [|l' lines].
  - by apply split_no_sep.
  - change (unlines (l :: l' :: lines)) with (l ++ nl :: unlines (l' :: lines)).
    rewrite split_app_sep by done. by rewrite IH.
Qed.

Lemma contains_char (s : str) (c : char) : contains s [c] = false <-> c ∉ s.
Proof.
  induction s as [|c' s IH]; cbn [contains].
  - split; [intros _; apply not_elem_of_nil|]. intros _.
    rewrite orb_false_r. apply startswith_not_prefix. intros [k Hk]. done.
  - rewrite orb_false_iff, IH, not_elem_of_cons, startswith_not_prefix. split.
    + intros [Hp Hs]. split; [|done]. intros ->. apply Hp. by exists s.
    + intros [Hc Hs]. split; [|done]. intros [k Hk]. cbn in Hk. congruence.
Qed.

(** The directory part of a manifest's path that has one. *)
Lemma manifest_dir (dir name : str) :
  "/"%char ∉ name →
  slice_to (dir ++ "/" ++ name) (rfind (dir ++ "/" ++ name) "/") = dir.
Proof.
  intros Hn. unfold rfind. rewrite (rfind_nat_app dir "/" name); [|done|].
  - apply slice_to_app.
  - by apply contains_char.
Qed.

(** A line with the separator: the digest is what stands before its last
    occurrence and the path what stands after. *)
Lemma add_record_separated (path d p : str) (md_list : list (str * str)) :
  contains (" " ++ p) "  " = false →
  add_record path md_list (d ++ "  " ++ p) = Dict.set md_list (path ++ "/" ++ p) d.
Proof.
  intros Hlast. unfold add_record.
  rewrite bool_decide_eq_true_2 by (rewrite !length_app; cbn; lia).
  unfold rfind. rewrite (rfind_nat_app d "  " p) by done.
  rewrite slice_to_app.
  change 2%Z with (Z.of_nat (length "  ")).
  by rewrite (slice_from_app d "  " p).
Qed.

(** Every line that contains the separator is of that form. *)
Lemma separated_line (md : str) :
  contains md "  " = true →
  ∃ d p, md = d ++ "  " ++ p ∧ contains (" " ++ p) "  " = false.
Proof.
  intros Hc. pose proof (rfind_nat_spec md "  ") as H.
  destruct (rfind_nat md "  ") as [i|] eqn:E.
  - destruct H as (Hi & [p Hp] & Hlast).
    exists (take i md), p. split.
    + by rewrite <- Hp, take_drop.
    + apply not_true_is_false. intros (j & Hj & Hq)%contains_spec.
      assert (length md = i + (2 + length p))%nat as Hlen.
      { rewrite <- (take_drop i md) at 1. rewrite length_app, Hp, length_take.
        rewrite length_app. cbn. lia. }
      apply (Hlast (i + 1 + j)%nat); [lia|cbn in Hj; lia|].
      replace (i + 1 + j)%nat with (i + (1 + j))%nat by lia.
      rewrite <- drop_drop, Hp. done.
  - apply contains_rfind_nat in E. congruence.
Qed.

(** A line without the separator: [rfind] answers [-1], and the slices
    [md[:-1]] and [md[1:]] are taken. *)
Lemma add_record_malformed (path md : str) (md_list : list (str * str)) :
  md ≠ [] → contains md "  " = false →
  add_record path md_list md
  = Dict.set md_list (path ++ "/" ++ drop 1 md) (take (length md - 1) md).
Proof.
  intros Hne Hc. unfold add_record.
  rewrite bool_decide_eq_true_2 by (destruct md; [done|cbn; lia]).
  unfold rfind. apply contains_rfind_nat in Hc. rewrite Hc.
  change (-1 + 2)%Z with 1%Z. by rewrite slice_to_minus_1, slice_from_1.
Qed.

Lemma set_keeps_keys (md_list : list (str * str)) (k k' v : str) :
  k ∈ Dict.keys md_list → k ∈ Dict.keys (Dict.set md_list k' v).
Proof.
  unfold Dict.keys. induction md_list as [|[k0 v0] md_list IH]; cbn.
  - intros H. by apply elem_of_nil in H.
  - intros [->|H]%elem_of_cons; case_decide; subst; cbn; try (left; done);
      right; auto.
Qed.

Lemma set_has_key (md_list : list (str * str)) (k v : str) :
  k ∈ Dict.keys (Dict.set md_list k v).
Proof.
  unfold Dict.keys. induction md_list as [|[k0 v0] md_list IH]; cbn.
  - left.
  - case_decide; cbn; [left|by right].
Qed.

Lemma add_record_keeps_keys (path md k : str) (md_list : list (str * str)) :
  k ∈ Dict.keys md_list → k ∈ Dict.keys (add_record path md_list md).
Proof.
  intros H. unfold add_record. case_bool_decide; [|done]. by apply set_keeps_keys.
Qed.

Lemma add_records_keep_keys (path k : str) (lines : list str) (md_list : list (str * str)) :
  k ∈ Dict.keys md_list → k ∈ Dict.keys (foldl (add_record path) md_list lines).
Proof.
  revert md_list. induction lines as [|md lines IH]; intros md_list H; [done|].
  cbn. apply IH. by apply add_record_keeps_keys.
Qed.

End manifest_facts.

(** ** Template substitution *)

Definition no_braces (s : str) : Prop := ("{"%char ∉ s) ∧ ("}"%char ∉ s).

Section format_facts.
Import PyStr.

Lemma format_go_plain_char (nb : numbering) (c : char) (rest arg : str) :
  c ≠ "{"%char → c ≠ "}"%char →
  format_go nb (c :: rest) arg = format_app [c] (format_go nb rest arg).
Proof.
  intros Ho Hc. destruct c as [|p]; [reflexivity|].
  do 7 (try (destruct p as [p|p|]; try reflexivity)); congruence.
Qed.

Lemma format_go_plain (nb : numbering) (s arg : str) :
  no_braces s → format_go nb s arg = Returns s.
Proof.
  intros [Ho Hc]. induction s as [|c s IH]; [done|].
  apply not_elem_of_cons in Ho as [Ho1 Ho]. apply not_elem_of_cons in Hc as [Hc1 Hc].
  rewrite format_go_plain_char by done. by rewrite IH.
Qed.

(** A template with one [{0}] and no other brace. *)
Lemma format_placeholder (pre post arg : str) :
  no_braces pre → no_braces post →
  format (pre ++ "{0}" ++ post) arg = Returns (pre ++ arg ++ post).
Proof.
  intros [Ho Hc] Hpost. unfold format. induction pre as [|c pre IH].
  - change (format_go Undecided ([] ++ "{0}" ++ post) arg)
      with (format_app arg (format_go Manual post arg)).
    by rewrite format_go_plain.
  - apply not_elem_of_cons in Ho as [Ho1 Ho]. apply not_elem_of_cons in Hc as [Hc1 Hc].
    change ((c :: pre) ++ "{0}" ++ post) with (c :: (pre ++ "{0}" ++ post)).
    rewrite format_go_plain_char by done. by rewrite IH.
Qed.
End format_facts.

(** ** The file list *)

(** The (group, file) pairs that the two loops of [download_files] visit. *)
Definition entries (catalog : list (str * list str)) (models : list str)
    : list (str * str) :=
  flat_map (fun '(model, files) =>
              if bool_decide (model ∈ models) then pair model <$> files else [])
           catalog.

Definition all_entries (catalog : list (str * list str)) : list (str * str) :=
  flat_map (fun '(model, files) => pair model <$> files) catalog.

(** The path of an entry below the destination root. *)
Definition relative (e : str * str) : str :=
  if decide (e.1 = ".") then e.2 else e.1 ++ "/" ++ e.2.

(** [fi] is the [FileInfo] made for the entry [e]. *)
Definition describes (url base_path : str) (fi : FileInfo) (e : str * str) : Prop :=
  PyStr.format url (e.1 ++ "/" ++ e.2) = Returns (file_url fi) ∧
  file_name fi = e.2 ∧
  file_path fi = destination base_path e.1 e.2.

Definition queued_bar (e : str * str) : bar := mkBar (queued e.2) (Some 100%Z) 0%Z false.

Section file_list_facts.

Lemma destination_relative (base_path : str) (e : str * str) :
  destination base_path e.1 e.2 = base_path ++ "/" ++ relative e.
Proof. unfold destination, relative. by case_decide. Qed.

Lemma add_files_spec url base_path model files fl pr fl' pr' :
  add_files url base_path model files (fl, pr) = Returns (fl', pr') →
  ∃ new, fl' = fl ++ new ∧
         Forall2 (describes url base_path) new (pair model <$> files) ∧
         progress_task <$> new = seq (length pr) (length files) ∧
         pr' = pr ++ (queued_bar <$> (pair model <$> files)).
Proof.
  revert fl pr. induction files as [|file files IH]; intros fl pr H.
  - cbn in H. injection H as <- <-. exists []. by rewrite !app_nil_r.
  - cbn [add_files] in H. unfold add_file in H.
    destruct (PyStr.format url (model ++ "/" ++ file)) as [u| |] eqn:Eu; try done.
    cbn [mbind outcome_bind Progress.add_task] in H.
    apply IH in H as (new & -> & Hd & Hid & ->).
    exists (mkFileInfo u file (destination base_path model file) (length pr) :: new).
    split_and!.
    + by rewrite <- app_assoc.
    + cbn. constructor; [done|done].
    + cbn. f_equal. rewrite Hid, length_app. cbn. f_equal. lia.
    + by rewrite <- app_assoc.
Qed.

Lemma add_models_spec catalog models url base_path fl pr fl' pr' :
  add_models catalog models url base_path (fl, pr) = Returns (fl', pr') →
  ∃ new, fl' = fl ++ new ∧
         Forall2 (describes url base_path) new (entries catalog models) ∧
         progress_task <$> new = seq (length pr) (length (entries catalog models)) ∧
         pr' = pr ++ (queued_bar <$> entries catalog models).
Proof.
  revert fl pr. induction catalog as [|[model files] catalog IH]; intros fl pr H.
  - cbn in H. injection H as <- <-. exists []. by rewrite !app_nil_r.
  - cbn [add_models] in H. unfold entries. cbn [flat_map]. fold (entries catalog models).
    case_bool_decide.
    + destruct (add_files url base_path model files (fl, pr)) as [[fl1 pr1]| |] eqn:E1;
        try done.
      cbn [mbind outcome_bind] in H.
      apply add_files_spec in E1 as (new1 & -> & Hd1 & Hid1 & ->).
      apply IH in H as (new2 & -> & Hd2 & Hid2 & ->).
      exists (new1 ++ new2). split_and!.
      * by rewrite <- app_assoc.
      * by apply Forall2_app.
      * rewrite fmap_app, Hid1, Hid2, !length_app, !length_fmap.
        by rewrite seq_app.
      * by rewrite fmap_app, <- app_assoc.
    + cbn [mbind outcome_bind] in H. apply IH in H as (new2 & -> & Hd2 & Hid2 & ->).
      exists new2. by rewrite app_nil_l.
Qed.

(** The list is built whenever the template can be filled in. *)
Lemma add_files_returns url base_path model files acc fmt :
  (∀ arg, PyStr.format url arg = Returns (fmt arg)) →
  ∃ acc', add_files url base_path model files acc = Returns acc'.
Proof.
  intros Hf. revert acc. induction files as [|file files IH]; intros [fl pr].
  - by eexists.
  - cbn [add_files]. unfold add_file. rewrite Hf. apply IH.
Qed.

Lemma add_models_returns catalog models url base_path acc fmt :
  (∀ arg, PyStr.format url arg = Returns (fmt arg)) →
  ∃ acc', add_models catalog models url base_path acc = Returns acc'.
Proof.
  intros Hf. revert acc. induction catalog as [|[model files] catalog IH]; intros acc.
  - by eexists.
  - cbn [add_models]. case_bool_decide.
    + destruct (add_files_returns url base_path model files acc fmt Hf) as [acc' ->].
      apply IH.
    + apply IH.
Qed.

Lemma entries_sublist catalog models :
  entries catalog models `sublist_of` all_entries catalog.
Proof.
  induction catalog as [|[model files] catalog IH]; [done|].
  unfold entries, all_entries. cbn [flat_map]. case_bool_decide.
  - by apply sublist_app.
  - by apply sublist_inserts_l.
Qed.

Lemma elem_of_entries catalog models g f :
  (g, f) ∈ entries catalog models <-> g ∈ models ∧ (g, f) ∈ all_entries catalog.
Proof.
  induction catalog as [|[model files] catalog IH].
  - cbn. split; [by intros ?%elem_of_nil|by intros [_ ?%elem_of_nil]].
  - unfold entries, all_entries. cbn [flat_map].
    fold (entries catalog models). fold (all_entries catalog).
    rewrite !elem_of_app, IH. case_bool_decide as Hm.
    + rewrite !list_elem_of_fmap. split.
      * intros [(x & Heq & Hx)|[Hg Hr]].
        -- injection Heq as -> ->. split; [done|]. left. eauto.
        -- split; [done|by right].
      * intros [Hg [H|H]]; [by left|by right].
    + rewrite !list_elem_of_fmap, elem_of_nil. split.
      * intros [[]|[Hg Hr]]. split; [done|by right].
      * intros [Hg [(x & Heq & Hx)|Hr]]; [by injection Heq as -> ->|by right].
Qed.

End file_list_facts.

Section catalog_facts.

Lemma get_all_entries (catalog : list (str * list str)) g files f :
  Dict.get catalog g = Some files → f ∈ files → (g, f) ∈ all_entries catalog.
Proof.
  induction catalog as [|[model fs] catalog IH]; [done|].
  unfold all_entries. cbn [Dict.get flat_map]. fold (all_entries catalog).
  intros Hg Hf. apply elem_of_app. case_decide as Hm.
  - injection Hg as ->. subst model. left. apply list_elem_of_fmap. eauto.
  - right. by apply IH.
Qed.

Lemma all_entries_get (catalog : list (str * list str)) g f :
  NoDup (Dict.keys catalog) → (g, f) ∈ all_entries catalog →
  ∃ files, Dict.get catalog g = Some files ∧ f ∈ files.
Proof.
  unfold Dict.keys. induction catalog as [|[model fs] catalog IH]; cbn [fmap list_fmap fst].
  - intros _ H. by apply elem_of_nil in H.
  - intros [Hnew Hnd]%NoDup_cons.
    unfold all_entries. cbn [Dict.get flat_map]. fold (all_entries catalog).
    intros [(x & Heq & Hx)%list_elem_of_fmap|Hr]%elem_of_app.
    + injection Heq as -> ->. rewrite decide_True by done. eauto.
    + destruct (IH Hnd Hr) as (files & Hget & Hf). case_decide as Hm; [|eauto].
      subst model. exfalso. apply Hnew. clear -Hget.
      induction catalog as [|[k v] catalog IHc]; [done|]. cbn in *.
      case_decide; [subst; left|right; auto].
Qed.

Lemma FILES_keys_NoDup : NoDup (Dict.keys FILES).
Proof. compute_done. Qed.

Lemma FILES_entries_NoDup : NoDup (all_entries FILES).
Proof. compute_done. Qed.

Lemma FILES_relative_NoDup : NoDup (relative <$> all_entries FILES).
Proof. compute_done. Qed.

(** Every group that [user_entry] names is a group of the catalogue. *)
Lemma user_entry_groups :
  Forall (fun kv => is_Some (Dict.get FILES kv.2)) user_entry.
Proof. repeat constructor; by eexists. Qed.

Lemma described_paths url base_path file_list E :
  Forall2 (describes url base_path) file_list E →
  file_path <$> file_list = (fun e => base_path ++ "/" ++ relative e) <$> E.
Proof.
  induction 1 as [|fi e fl E' (_ & _ & Hp) _ IH]; [done|].
  cbn. by rewrite Hp, destination_relative, IH.
Qed.

Lemma described_elem url base_path file_list E e :
  Forall2 (describes url base_path) file_list E → e ∈ E →
  ∃ fi, fi ∈ file_list ∧ describes url base_path fi e.
Proof.
  induction 1 as [|fi e' fl E' Hd _ IH]; intros He.
  - by apply elem_of_nil in He.
  - apply elem_of_cons in He as [->|He].
    + exists fi. split; [left|done].
    + destruct (IH He) as (fi' & Hin & Hd'). exists fi'. split; [by right|done].
Qed.

Definition known (m : str) : Prop := is_Some (Dict.get user_entry m).

(** The directory of the group that the option [m] names is there, or
    [mkdir] makes it. *)
Definition can_make (mkdir_error : str -> option exn) (base : str) (dirs : gset str)
    (m : str) : Prop :=
  ∀ g, Dict.get user_entry m = Some g →
       model_dir base g ∈ dirs ∨ mkdir_error (model_dir base g) = None.

(** The directories of the groups that the options [G] name. *)
Definition made (base : str) (G : list str) : gset str :=
  list_to_set (model_dir base <$> omap (Dict.get user_entry) G).

Lemma can_make_mono mkdir_error base dirs dirs' m :
  dirs ⊆ dirs' → can_make mkdir_error base dirs m → can_make mkdir_error base dirs' m.
Proof.
  intros Hsub Hm g Hg. destruct (Hm g Hg) as [Hin|Hmk]; [left; by apply Hsub|by right].
Qed.

Lemma union_absorb (dirs made : gset str) (p : str) :
  p ∈ dirs → dirs ∪ ({[ p ]} ∪ made) = dirs ∪ made.
Proof.
  intros Hp. apply set_eq. intros x. rewrite !elem_of_union, elem_of_singleton.
  split; [intros [?|[->|?]]; auto|intros [?|?]; auto].
Qed.

(** The loop of [main_prompt] over names that are options and whose
    directories are there or can be made. *)
Lemma add_requested_app mkdir_error base before rest download_list dirs :
  Forall known before → Forall (can_make mkdir_error base dirs) before →
  add_requested mkdir_error base (before ++ rest) download_list dirs
  = add_requested mkdir_error base rest
      (download_list ++ omap (Dict.get user_entry) before) (dirs ∪ made base before).
Proof.
  intros Hk. revert download_list dirs.
  induction Hk as [|m before [g Hg] _ IH]; intros download_list dirs Hmk.
  - unfold made. cbn [omap list_omap fmap list_fmap list_to_set app].
    by rewrite app_nil_r, (right_id_L ∅ (∪)).
  - apply Forall_cons in Hmk as [Hm Hmk].
    assert (made base (m :: before) = {[ model_dir base g ]} ∪ made base before) as Hmade.
    { unfold made. cbn [omap list_omap]. by rewrite Hg. }
    cbn [app add_requested omap list_omap]. rewrite Hg, Hmade. case_bool_decide as Hin.
    + rewrite IH by done. rewrite <- app_assoc. f_equal. by rewrite union_absorb.
    + destruct (Hm g Hg) as [? | ->]; [done|].
      rewrite IH.
      * rewrite <- app_assoc. f_equal. by rewrite (assoc_L (∪)).
      * eapply Forall_impl; [exact Hmk|]. intros x. apply can_make_mono.
        apply union_subseteq_l.
Qed.

Lemma add_requested_known mkdir_error base G download_list dirs :
  Forall known G → Forall (can_make mkdir_error base dirs) G →
  (add_requested mkdir_error base G download_list dirs).2
  = Returns (download_list ++ omap (Dict.get user_entry) G).
Proof.
  intros HG Hmk. rewrite <- (app_nil_r G) at 1. by rewrite add_requested_app.
Qed.

Lemma add_requested_unknown mkdir_error base before m after download_list dirs :
  Forall known before → Forall (can_make mkdir_error base dirs) before →
  Dict.get user_entry m = None →
  (add_requested mkdir_error base (before ++ m :: after) download_list dirs).2
  = Raises (ValueError (m ++ " is an unavailable option.")).
Proof.
  intros Hb Hmk Hm. rewrite add_requested_app by done. cbn [add_requested]. by rewrite Hm.
Qed.

Lemma add_requested_mkdir_fails mkdir_error base before m after download_list dirs g e :
  Forall known before → Forall (can_make mkdir_error base dirs) before →
  Dict.get user_entry m = Some g →
  model_dir base g ∉ dirs ∪ made base before →
  mkdir_error (model_dir base g) = Some e →
  (add_requested mkdir_error base (before ++ m :: after) download_list dirs).2 = Raises e.
Proof.
  intros Hb Hmk Hm Hnew He. rewrite add_requested_app by done. cbn [add_requested].
  rewrite Hm. rewrite bool_decide_eq_false_2 by done. by rewrite He.
Qed.

End catalog_facts.

(** C3 (counterexample): the names that are resolved are not the group
    names of the catalogue.  [llama-2-7b] is a group of the catalogue, and
    [main_prompt]'s loop refuses it as an unavailable option;
    [download_files], which takes catalogue names, adds no root group (its
    list for [llama-2-7b] holds the three files of that group only) and
    passes over a name that is not in the catalogue without an error. *)
Lemma catalogue_names_are_not_resolved :
  Dict.get FILES "llama-2-7b" = Some ["consolidated.00.pth"; "params.json"; "checklist.chk"]
  ∧ resolve writable "/data" "https://host/{0}" ["llama-2-7b"] ∅
    = Raises (ValueError "llama-2-7b is an unavailable option.")
  ∧ (∃ file_list progress,
       build_file_list ["llama-2-7b"] "https://host/{0}" "/data" = Returns (file_list, progress)
       ∧ file_path <$> file_list
         = [ "/data/llama-2-7b/consolidated.00.pth"; "/data/llama-2-7b/params.json";
             "/data/llama-2-7b/checklist.chk" ])
  ∧ build_file_list ["no-such-group"] "https://host/{0}" "/data" = Returns ([], []).
Proof.
  split_and!; [reflexivity|vm_compute; reflexivity| |vm_compute; reflexivity].
  eexists _, _. split; vm_compute; reflexivity.
Qed.

(** C3 (amended): the names that the user gives are the options of
    [user_entry], which [main_prompt] maps to groups of the catalogue.
    From a list [G] of options whose group directories are there or can
    be made, [main_prompt] and [download_files] make the list of files:
    the files of the root group ["."] and those that the catalogue
    declares for the group of each option, each once.  The first name
    that is not an option raises a [ValueError] that carries it, and
    [download_files] is not reached; so does, with its own exception, the
    first [mkdir] that fails.  No group name of the catalogue is an
    option.  [E] is the list of (group, file) pairs behind the file
    list. *)
Theorem option_names_resolved (mkdir_error : str -> option exn) (pre post base : str)
    (G : list str) (dirs : gset str) :
  no_braces pre → no_braces post →
  let url := pre ++ "{0}" ++ post in
  (∀ before m after,
     G = before ++ m :: after →
     Forall known before → Forall (can_make mkdir_error base dirs) before →
     (Dict.get user_entry m = None →
      resolve mkdir_error base url G dirs
      = Raises (ValueError (m ++ " is an unavailable option.")))
     ∧ (∀ g e, Dict.get user_entry m = Some g →
               model_dir base g ∉ dirs ∪ made base before →
               mkdir_error (model_dir base g) = Some e →
               resolve mkdir_error base url G dirs = Raises e))
  ∧ (Forall known G → Forall (can_make mkdir_error base dirs) G →
     ∃ file_list E,
       resolve mkdir_error base url G dirs = Returns file_list ∧
       Forall2 (describes url base) file_list E ∧
       NoDup E ∧
       NoDup (file_path <$> file_list) ∧
       ∀ g f, (g, f) ∈ E <->
              (g = "." ∨ ∃ m, m ∈ G ∧ Dict.get user_entry m = Some g) ∧
              ∃ files, Dict.get FILES g = Some files ∧ f ∈ files)
  ∧ (∀ g, g ∈ Dict.keys FILES → Dict.get user_entry g = None).
Proof.
  intros Hpre Hpost url. split_and!.
  - intros before m after -> Hb Hmk. unfold resolve, download_list_of. split.
    + intros Hm. by rewrite add_requested_unknown.
    + intros g e Hm Hnew He. by erewrite add_requested_mkdir_fails.
  - intros HG Hmk. unfold resolve, download_list_of. rewrite add_requested_known by done.
    cbn [mbind outcome_bind]. set (download_list := ["."] ++ omap (Dict.get user_entry) G).
    destruct (add_models_returns FILES download_list url base ([], [])
                (fun arg => pre ++ arg ++ post)) as [[file_list progress] Hret].
    { intros arg. by apply format_placeholder. }
    unfold build_file_list. rewrite Hret.
    apply add_models_spec in Hret as (new & Hfl & Hd & _ & _).
    rewrite app_nil_l in Hfl. subst new.
    exists file_list, (entries FILES download_list). split_and!; [done|done| | |].
    + eapply sublist_NoDup; [apply FILES_entries_NoDup|apply entries_sublist].
    + rewrite (described_paths _ _ _ _ Hd).
      change (fun e => base ++ "/" ++ relative e)
        with ((fun r => base ++ "/" ++ r) ∘ relative).
      rewrite list_fmap_compose. apply NoDup_fmap_2.
      * intros r1 r2 Heq. by simplify_list_eq.
      * eapply sublist_NoDup; [apply FILES_relative_NoDup|].
        apply fmap_sublist, entries_sublist.
    + intros g f. rewrite elem_of_entries. unfold download_list.
      rewrite elem_of_app, list_elem_of_singleton, list_elem_of_omap. split.
      * intros [Hg He]. split; [done|].
        by apply all_entries_get; [apply FILES_keys_NoDup|].
      * intros [Hg (files & Hget & Hf)]. split; [done|]. by eapply get_all_entries.
  - apply Forall_forall. compute_done.
Qed.

Lemma option_names_resolved_7B :
  (∀ before m after,
     ["7B"; "13B"; "7B"] = before ++ m :: after →
     Forall known before → Forall (can_make file_in_the_way "/srv" ∅) before →
     (Dict.get user_entry m = None →
      resolve file_in_the_way "/srv" ("https://host/" ++ "{0}" ++ "") ["7B"; "13B"; "7B"] ∅
      = Raises (ValueError (m ++ " is an unavailable option.")))
     ∧ (∀ g e, Dict.get user_entry m = Some g →
               model_dir "/srv" g ∉ (∅ : gset str) ∪ made "/srv" before →
               file_in_the_way (model_dir "/srv" g) = Some e →
               resolve file_in_the_way "/srv" ("https://host/" ++ "{0}" ++ "")
                 ["7B"; "13B"; "7B"] ∅ = Raises e))
  ∧ (Forall known ["7B"; "13B"; "7B"] →
     Forall (can_make file_in_the_way "/srv" ∅) ["7B"; "13B"; "7B"] →
     ∃ file_list E,
       resolve file_in_the_way "/srv" ("https://host/" ++ "{0}" ++ "") ["7B"; "13B"; "7B"] ∅
       = Returns file_list ∧
       Forall2 (describes ("https://host/" ++ "{0}" ++ "") "/srv") file_list E ∧
       NoDup E ∧
       NoDup (file_path <$> file_list) ∧
       ∀ g f, (g, f) ∈ E <->
              (g = "." ∨ ∃ m, m ∈ ["7B"; "13B"; "7B"] ∧ Dict.get user_entry m = Some g) ∧
              ∃ files, Dict.get FILES g = Some files ∧ f ∈ files)
  ∧ (∀ g, g ∈ Dict.keys FILES → Dict.get user_entry g = None).
Proof.
  apply (option_names_resolved file_in_the_way "https://host/" "" "/srv"
           ["7B"; "13B"; "7B"] ∅).
  - split; compute_done.
  - split; apply not_elem_of_nil.
Defined.

(** The answer [7B,13B,7B] on a writable disk: the root files, then the
    files of the two groups in the order of the catalogue, each once. *)
Example options_7B_13B_7B :
  file_path <$> (match resolve writable "/srv" "https://host/{0}" ["7B"; "13B"; "7B"] ∅ with
                 | Returns l => l | _ => [] end)
  = [ "/srv/LICENSE"; "/srv/USE_POLICY.md"; "/srv/tokenizer.model";
      "/srv/tokenizer_checklist.chk"; "/srv/llama-2-7b/consolidated.00.pth";
      "/srv/llama-2-7b/params.json"; "/srv/llama-2-7b/checklist.chk";
      "/srv/llama-2-13b/consolidated.00.pth"; "/srv/llama-2-13b/consolidated.01.pth";
      "/srv/llama-2-13b/params.json"; "/srv/llama-2-13b/checklist.chk" ].
Proof. vm_compute. reflexivity. Qed.

(** C10: for a file of the root group ["."], the text put into the URL
    template is ["./" ++ file], so that the URL has a ["./"] segment, and
    the destination is the file directly under the root, [base/file]. *)
Theorem root_file_url_and_destination (pre post base : str) (models : list str) (file : str) :
  no_braces pre → no_braces post →
  "." ∈ models → file ∈ default [] (Dict.get FILES ".") →
  ∃ file_list progress fi,
    build_file_list models (pre ++ "{0}" ++ post) base = Returns (file_list, progress) ∧
    fi ∈ file_list ∧
    file_name fi = file ∧
    file_url fi = pre ++ "./" ++ file ++ post ∧
    file_path fi = base ++ "/" ++ file.
Proof.
  intros Hpre Hpost Hroot Hfile. set (url := pre ++ "{0}" ++ post).
  destruct (add_models_returns FILES models url base ([], [])
              (fun arg => pre ++ arg ++ post)) as [[file_list progress] Hret].
  { intros arg. by apply format_placeholder. }
  unfold build_file_list. rewrite Hret. exists file_list, progress.
  apply add_models_spec in Hret as (new & Hfl & Hd & _ & _).
  rewrite app_nil_l in Hfl. subst new.
  assert ((".", file) ∈ entries FILES models) as He.
  { apply elem_of_entries. split; [done|].
    destruct (Dict.get FILES ".") as [files|] eqn:Hget; [|by apply elem_of_nil in Hfile].
    by eapply get_all_entries. }
  destruct (described_elem _ _ _ _ _ Hd He) as (fi & Hin & Hurl & Hname & Hpath).
  exists fi. split_and!; [done|done|done| |done].
  unfold url in Hurl. rewrite format_placeholder in Hurl by done.
  injection Hurl as <-. reflexivity.
Qed.

Lemma root_file_url_and_destination_LICENSE :
  ∃ file_list progress fi,
    build_file_list ["."; "llama-2-7b"] ("https://host/" ++ "{0}" ++ "") "/data"
    = Returns (file_list, progress) ∧
    fi ∈ file_list ∧
    file_name fi = "LICENSE" ∧
    file_url fi = "https://host/" ++ "./" ++ "LICENSE" ++ "" ∧
    file_path fi = "/data" ++ "/" ++ "LICENSE".
Proof.
  apply (root_file_url_and_destination "https://host/" "" "/data" ["."; "llama-2-7b"] "LICENSE").
  - split; compute_done.
  - split; apply not_elem_of_nil.
  - compute_done.
  - compute_done.
Defined.

(** ** Manifests *)

Definition no_such_file : exn := OSError "No such file or directory".

(** A working directory that holds [LICENSE] and its manifest. *)
Definition working_directory : Disk :=
  mkDisk
    (fun file =>
       if decide (file = "tokenizer_checklist.chk")
       then inr "d41d8cd98f00b204e9800998ecf8427e  LICENSE"
       else inl no_such_file)
    (fun file_path =>
       if decide (file_path = "LICENSE") then Readable [] None
       else Unreadable no_such_file)
    (fun _ => ["LICENSE"; "tokenizer_checklist.chk"]).

(** C6 (failing input): [verify_md5()] with its default arguments, in a
    directory that holds [tokenizer_checklist.chk].  The manifest's path
    has no ["/"], [rfind] answers [-1], and [file[:-1]] is taken for the
    directory: the target is [tokenizer_checklist.ch/LICENSE], not the
    [LICENSE] that stands beside the manifest. *)
Theorem manifest_without_directory :
  retrieved working_directory "" [] = ["LICENSE"; "tokenizer_checklist.chk"] ∧
  read_manifests working_directory
    (filter (fun file => is_chk file = true) (retrieved working_directory "" [])) [] []
  = (["tokenizer_checklist.chk"],
     inr [("tokenizer_checklist.ch/LICENSE", "d41d8cd98f00b204e9800998ecf8427e")]).
Proof. split; vm_compute; reflexivity. Qed.

(** A record of a manifest whose path has a directory part: the digest is
    what stands before the last two-space separator of the line, the path
    what stands after it, below the manifest's directory.  The lines
    before and after are handled as usual. *)
Theorem manifest_line_resolved (dir name d p : str) (before after : list str)
    (md_list : list (str * str)) :
  "/"%char ∉ name →
  Forall (fun l => PyStr.nl ∉ l) (before ++ (d ++ "  " ++ p) :: after) →
  PyStr.contains (" " ++ p) "  " = false →
  add_manifest (dir ++ "/" ++ name) (unlines (before ++ (d ++ "  " ++ p) :: after)) md_list
  = foldl (add_record dir)
      (Dict.set (foldl (add_record dir) md_list before) (dir ++ "/" ++ p) d) after.
Proof.
  intros Hname Hlines Hlast. unfold add_manifest.
  rewrite manifest_dir by done.
  rewrite split_unlines by (done || by destruct before).
  rewrite foldl_app. cbn [foldl]. by rewrite add_record_separated.
Qed.

Lemma manifest_line_resolved_spaces :
  add_manifest ("/data/llama-2-7b" ++ "/" ++ "checklist.chk")
    (unlines ([] ++ ("d41d8cd98f00b204e9800998ecf8427e" ++ "  " ++ "sub dir/file with space.bin") :: []))
    []
  = foldl (add_record "/data/llama-2-7b")
      (Dict.set (foldl (add_record "/data/llama-2-7b") [] [])
         ("/data/llama-2-7b" ++ "/" ++ "sub dir/file with space.bin")
         "d41d8cd98f00b204e9800998ecf8427e") [].
Proof.
  apply (manifest_line_resolved "/data/llama-2-7b" "checklist.chk"
           "d41d8cd98f00b204e9800998ecf8427e" "sub dir/file with space.bin" [] [] []).
  - compute_done.
  - compute_done.
  - reflexivity.
Defined.

Example manifest_line_with_spaces :
  add_manifest "/data/llama-2-7b/checklist.chk"
    "d41d8cd98f00b204e9800998ecf8427e  sub dir/file with space.bin" []
  = [("/data/llama-2-7b/sub dir/file with space.bin", "d41d8cd98f00b204e9800998ecf8427e")].
Proof. vm_compute. reflexivity. Qed.

(** C8 (counterexample): a line without the two-space separator is not
    skipped; it makes a record, from the line without its last character
    and the line without its first. *)
Lemma malformed_line_makes_a_record :
  PyStr.contains "garbage" "  " = false ∧
  add_manifest "/data/checklist.chk" "garbage" [] = [("/data/arbage", "garbag")].
Proof. split; vm_compute; reflexivity. Qed.

(** C8 (amended): for a non-empty line [md] without the two-space
    separator nothing is logged and nothing is skipped: [rfind] answers
    [-1], the record [(path/md[1:], md[:-1])] is stored, and the lines
    after it are handled as usual. *)
Theorem malformed_line_recorded (file md : str) (before after : list str)
    (md_list : list (str * str)) :
  Forall (fun l => PyStr.nl ∉ l) (before ++ md :: after) →
  md ≠ [] →
  PyStr.contains md "  " = false →
  let path := PyStr.slice_to file (PyStr.rfind file "/") in
  let file_path := path ++ "/" ++ drop 1 md in
  let file_name := take (length md - 1) md in
  add_manifest file (unlines (before ++ md :: after)) md_list
  = foldl (add_record path)
      (Dict.set (foldl (add_record path) md_list before) file_path file_name) after
  ∧ file_path ∈ Dict.keys (add_manifest file (unlines (before ++ md :: after)) md_list).
Proof.
  intros Hlines Hne Hc path file_path file_name.
  assert (add_manifest file (unlines (before ++ md :: after)) md_list
          = foldl (add_record path)
              (Dict.set (foldl (add_record path) md_list before) file_path file_name) after)
    as Heq.
  { unfold add_manifest. fold path.
    rewrite split_unlines by (done || by destruct before).
    rewrite foldl_app. cbn [foldl]. by rewrite add_record_malformed. }
  split; [done|]. rewrite Heq. apply add_records_keep_keys, set_has_key.
Qed.

Lemma malformed_line_recorded_garbage :
  let path := PyStr.slice_to "/data/checklist.chk" (PyStr.rfind "/data/checklist.chk" "/") in
  let file_path := path ++ "/" ++ drop 1 "garbage" in
  let file_name := take (length "garbage" - 1) "garbage" in
  add_manifest "/data/checklist.chk"
    (unlines (["d41d8cd98f00b204e9800998ecf8427e  a.bin"] ++ "garbage"
              :: ["900150983cd24fb0d6963f7d28e17f72  b.bin"])) []
  = foldl (add_record path)
      (Dict.set (foldl (add_record path) [] ["d41d8cd98f00b204e9800998ecf8427e  a.bin"])
         file_path file_name)
      ["900150983cd24fb0d6963f7d28e17f72  b.bin"]
  ∧ file_path ∈ Dict.keys (add_manifest "/data/checklist.chk"
      (unlines (["d41d8cd98f00b204e9800998ecf8427e  a.bin"] ++ "garbage"
                :: ["900150983cd24fb0d6963f7d28e17f72  b.bin"])) []).
Proof.
  apply (malformed_line_recorded "/data/checklist.chk" "garbage"
           ["d41d8cd98f00b204e9800998ecf8427e  a.bin"]
           ["900150983cd24fb0d6963f7d28e17f72  b.bin"] []).
  - compute_done.
  - discriminate.
  - reflexivity.
Defined.

(** The cuts are made by character, whatever the width of the characters
    in bytes: [md[1:]] and [md[:-1]] of a line of three wide characters. *)
Example malformed_line_of_wide_characters :
  PyStr.slice_from "日本語" 1 = "本語" ∧ PyStr.slice_to "日本語" (-1) = "日本" ∧
  add_manifest "data/checklist.chk" "日本語" [] = [("data/本語", "日本")].
Proof. split_and!; vm_compute; reflexivity. Qed.

(** ** Which inputs are read as manifests *)

Definition normalised (file : str) : str := PyStr.replace file PyStr.backslash "/".

Section check_files_facts.

Lemma read_manifests_opened d check_files md_list opened :
  ∃ more, (read_manifests d check_files md_list opened).1 = opened ++ more ∧
          more `prefix_of` (normalised <$> check_files).
Proof.
  revert md_list opened.
  induction check_files as [|file rest IH]; intros md_list opened.
  - exists []. by rewrite app_nil_r.
  - cbn [read_manifests]. fold (normalised file).
    destruct (read_text d (normalised file)) as [e|text].
    + exists [normalised file]. split; [done|]. cbn. by apply prefix_cons, prefix_nil.
    + destruct (IH (add_manifest (normalised file) text md_list)
                   (opened ++ [normalised file])) as (more & -> & Hp).
      exists (normalised file :: more). split; [by rewrite <- app_assoc|].
      cbn. by apply prefix_cons.
Qed.

Lemma read_manifests_same_text d d' check_files md_list opened :
  (∀ q, q ∈ check_files → read_text d' (normalised q) = read_text d (normalised q)) →
  read_manifests d' check_files md_list opened
  = read_manifests d check_files md_list opened.
Proof.
  revert md_list opened.
  induction check_files as [|file rest IH]; intros md_list opened Hsame; [done|].
  cbn [read_manifests]. fold (normalised file).
  rewrite Hsame by left. destruct (read_text d (normalised file)); [done|].
  apply IH. intros q Hq. apply Hsame. by right.
Qed.

Lemma check_targets_same_binary d d' md_list md5_hash log printed :
  (∀ p, read_binary d' p = read_binary d p) →
  check_targets d' md_list md5_hash log printed
  = check_targets d md_list md5_hash log printed.
Proof.
  intros Hsame. revert md5_hash log printed.
  induction md_list as [|[file_path md_origin] rest IH]; intros md5_hash log printed;
    [done|].
  cbn [check_targets]. rewrite Hsame.
  destruct (read_binary d file_path) as [e|data [e|]];
    repeat (case_match; try done); by rewrite ?IH.
Qed.

End check_files_facts.

(** C9: [verify_md5] reads as manifests only those of its inputs whose
    path contains [".chk"], whether the inputs are the downloaded files or
    the scan of [chk_folder]: an input without [".chk"] can be taken away
    without changing anything, every manifest opened is an input with
    [".chk"], and what the other inputs would hold as text is never
    looked at. *)
Theorem only_chk_inputs_are_manifests (d : Disk) (chk_folder : str)
    (file_info : list FileInfo) :
  let retrieve := retrieved d chk_folder file_info in
  verify_md5 d chk_folder file_info
  = verify_files d (filter (fun file => is_chk file = true) retrieve)
  ∧ (∀ a q b, retrieve = a ++ q :: b → is_chk q = false →
       verify_md5 d chk_folder file_info = verify_files d (a ++ b))
  ∧ (∀ p, p ∈ (verify_md5 d chk_folder file_info).1 →
       ∃ q, q ∈ retrieve ∧ is_chk q = true ∧ p = normalised q)
  ∧ (∀ d', (∀ p, read_binary d' p = read_binary d p) →
       (∀ q, q ∈ retrieve → is_chk q = true →
          read_text d' (normalised q) = read_text d (normalised q)) →
       verify_files d' retrieve = verify_md5 d chk_folder file_info).
Proof.
  intros retrieve. unfold verify_md5. fold retrieve. split_and!.
  - unfold verify_files. by rewrite list_filter_filter_l.
  - intros a q b -> Hq. unfold verify_files.
    rewrite !filter_app, filter_cons, decide_False by congruence. done.
  - intros p Hp. unfold verify_files in Hp.
    destruct (read_manifests_opened d (filter (fun file => is_chk file = true) retrieve) [] [])
      as (more & Hopened & Hprefix).
    assert (p ∈ more) as Hmore.
    { destruct (read_manifests d _ [] []) as [opened [e|md_list]]; cbn in *; by subst. }
    eapply elem_of_prefix in Hmore; [|done].
    apply list_elem_of_fmap in Hmore as (q & -> & [Hq Hin]%list_elem_of_filter).
    by exists q.
  - intros d' Hbin Htext. unfold verify_files.
    rewrite (read_manifests_same_text d d').
    + destruct (read_manifests d _ [] []) as [opened [e|md_list]]; [done|].
      by rewrite (check_targets_same_binary d d').
    + intros q [Hq Hin]%list_elem_of_filter. by apply Htext.
Qed.

(** ** Reading and hashing a target *)

Section hashing_facts.

Lemma chunk_size_pos : (0 < chunk_size)%nat.
Proof. unfold chunk_size. apply Nat.lt_0_succ. Qed.

Lemma take_chunk_nil (f : bytes) : take chunk_size f = [] → f = [].
Proof.
  intros H. apply (f_equal length) in H. rewrite length_take in H.
  pose proof chunk_size_pos. destruct f; [done|]. cbn [length] in H. lia.
Qed.

(** The chunks, put together, are the file. *)
Lemma read_chunks_go_concat (fuel : nat) (f : bytes) :
  (length f ≤ fuel)%nat → concat (read_chunks_go fuel f) = f.
Proof.
  revert f. induction fuel as [|fuel IH]; intros f Hlen.
  - destruct f; [done|]. cbn in Hlen. lia.
  - cbn [read_chunks_go]. case_bool_decide as Hnil.
    + by rewrite (take_chunk_nil f).
    + cbn [concat]. rewrite IH; [apply take_drop|].
      rewrite length_drop. pose proof chunk_size_pos. lia.
Qed.

Lemma read_chunks_concat (f : bytes) : concat (read_chunks f) = f.
Proof. by apply read_chunks_go_concat. Qed.

(** The [i]-th chunk is the [i]-th run of 4096 bytes of the file (the
    last one may be shorter), and no chunk is empty. *)
Lemma read_chunks_go_lookup (fuel : nat) (f : bytes) (i : nat) (chunk : bytes) :
  read_chunks_go fuel f !! i = Some chunk →
  chunk = take chunk_size (drop (i * chunk_size) f) ∧ chunk ≠ [].
Proof.
  revert f i. induction fuel as [|fuel IH]; intros f i; [done|].
  cbn [read_chunks_go]. case_bool_decide as Hnil; [done|].
  destruct i as [|i].
  - intros [= <-]. done.
  - intros H%IH. rewrite drop_drop in H.
    by replace (S i * chunk_size)%nat with (chunk_size + i * chunk_size)%nat by lia.
Qed.

Lemma update_chunks (h : MD5.md5_object) (chunks : list bytes) :
  foldl MD5.update h chunks = MD5.Md5 (MD5.fed h ++ concat chunks).
Proof.
  revert h. induction chunks as [|c chunks IH]; intros h.
  - cbn. rewrite app_nil_r. by destruct h.
  - cbn [foldl concat]. rewrite IH. cbn. by rewrite <- app_assoc.
Qed.

(** The running digest is the digest of the whole file. *)
Lemma hash_file_digest (data : bytes) :
  MD5.hexdigest (hash_file data) = MD5.hex (MD5.digest data).
Proof.
  unfold hash_file, MD5.hexdigest. rewrite update_chunks.
  by rewrite read_chunks_concat.
Qed.

End hashing_facts.

(** An empty file, and a manifest that gives its digest in capitals. *)
Definition empty_target : Disk :=
  mkDisk (fun _ => inl no_such_file)
         (fun file_path =>
            if decide (file_path = "/data/empty.bin") then Readable [] None
            else Unreadable no_such_file)
         (fun _ => []).

(** C7 (counterexample): the expected digest differs from the computed one
    in letter case only, and the file is reported as a mismatch. *)
Lemma uppercase_digest_is_a_mismatch :
  lower "D41D8CD98F00B204E9800998ECF8427E" = MD5.hexdigest (hash_file []) ∧
  check_targets empty_target
    [("/data/empty.bin", "D41D8CD98F00B204E9800998ECF8427E")] None [] []
  = mkVerification
      [(ERROR, "/data/empty.bin | D41D8CD98F00B204E9800998ECF8427E != d41d8cd98f00b204e9800998ecf8427e")]
      ["/data/empty.bin | D41D8CD98F00B204E9800998ECF8427E != d41d8cd98f00b204e9800998ecf8427e"]
      None.
Proof. split; vm_compute; reflexivity. Qed.

(** C7 (amended): a target that can be read is read in chunks of 4096
    bytes (the [i]-th chunk is the [i]-th run of 4096 bytes, the chunks
    together are the file), the running digest is the MD5 of the file, and
    it is compared with the expected value by [==] on the lower-case
    hexadecimal text, without folding the case: the file is reported OK
    exactly when the two texts are equal. *)
Theorem target_digest_compared_exactly (d : Disk) (file_path md_origin : str)
    (data : bytes) (rest : list (str * str)) (md5_hash : option MD5.md5_object)
    (log : list (level * str)) (printed : list str) :
  read_binary d file_path = Readable data None →
  concat (read_chunks data) = data
  ∧ (∀ i chunk, read_chunks data !! i = Some chunk →
       chunk = take 4096 (drop (i * 4096) data) ∧ chunk ≠ [])
  ∧ MD5.hexdigest (hash_file data) = MD5.hex (MD5.digest data)
  ∧ check_targets d ((file_path, md_origin) :: rest) md5_hash log printed
    = if bool_decide (MD5.hex (MD5.digest data) = md_origin)
      then check_targets d rest (Some (hash_file data))
             (log ++ [(INFO, ok_line file_path)]) (printed ++ [ok_line file_path])
      else check_targets d rest (Some (hash_file data))
             (log ++ [(ERROR, mismatch_line file_path md_origin (MD5.hex (MD5.digest data)))])
             (printed ++ [mismatch_line file_path md_origin (MD5.hex (MD5.digest data))]).
Proof.
  intros Hread. split_and!.
  - apply read_chunks_concat.
  - intros i chunk. apply read_chunks_go_lookup.
  - apply hash_file_digest.
  - cbn [check_targets]. rewrite Hread. by rewrite !hash_file_digest.
Qed.

Lemma target_digest_compared_exactly_empty :
  concat (read_chunks []) = []
  ∧ (∀ i chunk, read_chunks [] !! i = Some chunk →
       chunk = take 4096 (drop (i * 4096) []) ∧ chunk ≠ [])
  ∧ MD5.hexdigest (hash_file []) = MD5.hex (MD5.digest [])
  ∧ check_targets empty_target [("/data/empty.bin", "d41d8cd98f00b204e9800998ecf8427e")]
      None [] []
    = if bool_decide (MD5.hex (MD5.digest []) = "d41d8cd98f00b204e9800998ecf8427e")
      then check_targets empty_target [] (Some (hash_file []))
             ([] ++ [(INFO, ok_line "/data/empty.bin")]) ([] ++ [ok_line "/data/empty.bin"])
      else check_targets empty_target [] (Some (hash_file []))
             ([] ++ [(ERROR, mismatch_line "/data/empty.bin" "d41d8cd98f00b204e9800998ecf8427e"
                               (MD5.hex (MD5.digest [])))])
             ([] ++ [mismatch_line "/data/empty.bin" "d41d8cd98f00b204e9800998ecf8427e"
                       (MD5.hex (MD5.digest []))]).
Proof.
  apply (target_digest_compared_exactly empty_target "/data/empty.bin"
           "d41d8cd98f00b204e9800998ecf8427e" [] [] None [] []).
  reflexivity.
Defined.

(** ** Targets that cannot be read *)

(** A manifest that names [missing.bin], which does not exist. *)
Definition missing_target : Disk :=
  mkDisk
    (fun file =>
       if decide (file = "/data/checklist.chk")
       then inr "d41d8cd98f00b204e9800998ecf8427e  missing.bin"
       else inl no_such_file)
    (fun _ => Unreadable no_such_file)
    (fun _ => []).

Definition checklist_info : FileInfo :=
  mkFileInfo "https://host/./checklist.chk" "checklist.chk" "/data/checklist.chk" 0.

(** C5 (failing input): the first target cannot be opened.  The error is
    caught and logged, but [md5_hash] has no value yet when
    [md5_hash.hexdigest()] is evaluated after the [try]: the
    [UnboundLocalError] leaves [verify_md5], and no line is printed for
    the file. *)
Theorem first_unreadable_target_aborts :
  verify_md5 missing_target "" [checklist_info]
  = (["/data/checklist.chk"],
     mkVerification [(ERROR, "No such file or directory")] []
       (Some (UnboundLocalError "md5_hash"))).
Proof. vm_compute. reflexivity. Qed.

(** The same holds of any first target whose [open] raises. *)
Lemma unreadable_first_target (d : Disk) (file_path md_origin : str) (e : exn)
    (rest : list (str * str)) (log : list (level * str)) (printed : list str) :
  read_binary d file_path = Unreadable e →
  check_targets d ((file_path, md_origin) :: rest) None log printed
  = mkVerification (log ++ [(ERROR, exn_message e)]) printed
      (Some (UnboundLocalError "md5_hash")).
Proof. intros H. cbn [check_targets]. by rewrite H. Qed.

(** A later target that cannot be opened is compared with the digest of
    the file read before it. *)
Lemma unreadable_later_target (d : Disk) (file_path md_origin : str) (e : exn)
    (h : MD5.md5_object) (rest : list (str * str))
    (log : list (level * str)) (printed : list str) :
  read_binary d file_path = Unreadable e →
  check_targets d ((file_path, md_origin) :: rest) (Some h) log printed
  = if bool_decide (MD5.hexdigest h = md_origin)
    then check_targets d rest (Some h)
           (log ++ [(ERROR, exn_message e)] ++ [(INFO, ok_line file_path)])
           (printed ++ [ok_line file_path])
    else check_targets d rest (Some h)
           (log ++ [(ERROR, exn_message e)]
                ++ [(ERROR, mismatch_line file_path md_origin (MD5.hexdigest h))])
           (printed ++ [mismatch_line file_path md_origin (MD5.hexdigest h)]).
Proof.
  intros H. cbn [check_targets]. rewrite H. rewrite <- !app_assoc. done.
Qed.

(** An empty file [a.bin], and [gone.bin] that does not exist but is
    listed with the same digest. *)
Definition gone_target : Disk :=
  mkDisk
    (fun file =>
       if decide (file = "/data/checklist.chk")
       then inr (unlines ["d41d8cd98f00b204e9800998ecf8427e  a.bin";
                          "d41d8cd98f00b204e9800998ecf8427e  gone.bin"])
       else inl no_such_file)
    (fun file_path =>
       if decide (file_path = "/data/a.bin") then Readable [] None
       else Unreadable no_such_file)
    (fun _ => []).

Example unreadable_target_reported_ok :
  (verify_md5 gone_target "" [checklist_info]).2
  = mkVerification
      [(INFO, "/data/a.bin is OK");
       (ERROR, "No such file or directory");
       (INFO, "/data/gone.bin is OK")]
      ["/data/a.bin is OK"; "/data/gone.bin is OK"]
      None.
Proof. vm_compute. reflexivity. Qed.

(** ** One download *)

Section single_download.
Context (w : World) (fi : FileInfo).

Lemma alter_keeps_bar (f : bar → bar) (p : list bar) (id id' : nat) :
  (fun _ => ()) <$> alter f id p !! id' = (fun _ => ()) <$> p !! id'.
Proof.
  destruct (decide (id = id')) as [->|Hne].
  - rewrite list_lookup_alter_eq. by destruct (p !! id').
  - by rewrite list_lookup_alter_ne.
Qed.

Lemma update_description_lookup (p : list bar) (id : nat) (text : str) :
  description <$> Progress.update_description p id text !! id = (fun _ => text) <$> p !! id.
Proof.
  unfold Progress.update_description. rewrite list_lookup_alter_eq.
  by destruct (p !! id).
Qed.

Lemma begin_keeps_bar (response : Response) (σ : state) (id : nat) :
  (fun _ => ()) <$> bars (begin fi response σ) !! id = (fun _ => ()) <$> bars σ !! id.
Proof.
  cbn. unfold Progress.start_task, Progress.update_total.
  rewrite alter_keeps_bar. destruct (content_length response); [|done].
  by rewrite alter_keeps_bar.
Qed.

Lemma written_keeps_bar (data : bytes) (σ : state) (id : nat) :
  (fun _ => ()) <$> bars (written fi data σ) !! id = (fun _ => ()) <$> bars σ !! id.
Proof. cbn. unfold Progress.advance. by rewrite alter_keeps_bar. Qed.

(** What the [async for] loop leaves when no write fails: the chunks are
    appended to the file, nothing else is written and nothing is logged. *)
Lemma stream_writes (k : nat) (chunks : list bytes) (σ : state) (old : bytes) :
  (∀ k, write_error w (file_path fi) k = None) →
  files σ !! file_path fi = Some old →
  ∃ σ', stream w fi k chunks σ = inr σ' ∧
        files σ' !! file_path fi = Some (old ++ concat chunks) ∧
        (∀ p, p ≠ file_path fi → files σ' !! p = files σ !! p) ∧
        logged σ' = logged σ ∧
        (∀ id, (fun _ => ()) <$> bars σ' !! id = (fun _ => ()) <$> bars σ !! id).
Proof.
  intros Hw. revert k σ old. induction chunks as [|data rest IH]; intros k σ old Hold.
  - exists σ. rewrite app_nil_r. done.
  - cbn [stream]. rewrite Hw.
    destruct (IH (S k) (written fi data σ) (old ++ data)) as (σ' & Hs & Hf & Hp & Hl & Hb).
    { cbn. rewrite Hold. cbn. by rewrite lookup_insert_eq. }
    exists σ'. split_and!; [done| | |done|].
    + rewrite Hf. cbn. by rewrite <- app_assoc.
    + intros p Hne. rewrite Hp by done. cbn. by rewrite lookup_insert_ne.
    + intros id. by rewrite Hb, written_keeps_bar.
Qed.

End single_download.

(** A server that answers 206 Partial Content with a body. *)
Definition partial_content : Response :=
  mkResponse 206 "Partial Content" (Some 3%Z) ["abc"%bytes] None.

(** What [asyncio.run] logs on Linux. *)
Definition epoll : str := "Using selector: EpollSelector".

Definition answers (response : Response) : World :=
  mkWorld (fun _ => inr response) (fun _ => None) (fun _ _ => None) epoll.

Definition params_info : FileInfo :=
  mkFileInfo "https://host/llama-2-7b/params.json" "params.json"
             "/data/llama-2-7b/params.json" 0.

Definition one_queued (disk : gmap str bytes) : state :=
  mkState disk [mkBar (queued "params.json") (Some 100%Z) 0%Z false] [].

(** C4 (counterexample): the status 206 lies in 200-299, the task ends as
    unable to download and the body is not written. *)
Lemma status_206_is_a_failure :
  (200 ≤ status partial_content ≤ 299)%Z ∧
  ∃ σ', _file_downloader (answers partial_content) params_info (one_queued ∅) = inr σ' ∧
        description <$> bars σ' !! 0%nat
        = Some "[red]Unable to download [b]params.json[/b] - 206" ∧
        files σ' !! "/data/llama-2-7b/params.json" = Some [] ∧
        logged σ'
        = [(ERROR, "206 | params.json" ++ [PyStr.nl] ++ "Partial Content" ++ [PyStr.nl]
                     ++ "https://host/llama-2-7b/params.json")].
Proof.
  split; [done|]. eexists. split; [reflexivity|]. split_and!; reflexivity.
Qed.

(** C4 (amended): the status 200, and no other, is a success.  When the
    request and the opening of the destination succeed: with status 200
    (and no error while the body is read and written) the body is written
    to the destination, the task ends as finished and the completion is
    logged; with any other status, 2xx or not, the task ends as unable to
    download, the status, the reason and the URL are logged as an error,
    and nothing of the body is written. *)
Theorem only_status_200_succeeds (w : World) (fi : FileInfo) (σ : state)
    (response : Response) :
  http_get w (file_url fi) = inr response →
  open_error w (file_path fi) = None →
  (status response = 200%Z →
   (∀ k, write_error w (file_path fi) k = None) → body_error response = None →
   ∃ σ', _file_downloader w fi σ = inr σ' ∧
         files σ' !! file_path fi = Some (concat (body response)) ∧
         description <$> bars σ' !! progress_task fi
         = (fun _ => finished (file_name fi) (content_length response))
             <$> bars σ !! progress_task fi ∧
         logged σ' = logged σ ++ [(INFO, completed_message response (file_name fi))])
  ∧ (status response ≠ 200%Z →
     ∃ σ', _file_downloader w fi σ = inr σ' ∧
           files σ' !! file_path fi = Some [] ∧
           description <$> bars σ' !! progress_task fi
           = (fun _ => unable (file_name fi) (status response))
               <$> bars σ !! progress_task fi ∧
           logged σ' = logged σ ++ [(ERROR, failure_message response fi)]).
Proof.
  intros Hget Hopen. unfold _file_downloader. rewrite Hget, Hopen. split.
  - intros Hst Hw Hbody. rewrite Hst, Hbody, Hw. cbn [Z.eqb Pos.eqb].
    destruct (stream_writes w fi 0 (body response) (begin fi response (opened_wb fi σ)) [])
      as (σ1 & -> & Hf & _ & Hl & Hb); [done|cbn; by rewrite lookup_insert_eq|].
    eexists. split; [done|]. split_and!.
    + exact Hf.
    + cbn [succeed bars]. rewrite update_description_lookup.
      specialize (Hb (progress_task fi)). rewrite begin_keeps_bar in Hb. cbn in Hb.
      destruct (bars σ1 !! progress_task fi), (bars σ !! progress_task fi); done.
    + cbn [succeed logged]. by rewrite Hl.
  - intros Hst. apply Z.eqb_neq in Hst. rewrite Hst.
    eexists. split; [done|]. split_and!.
    + cbn. by rewrite lookup_insert_eq.
    + cbn [fail bars opened_wb]. by rewrite update_description_lookup.
    + done.
Qed.

Lemma only_status_200_succeeds_partial_content :
  (status partial_content = 200%Z →
   (∀ k, write_error (answers partial_content) (file_path params_info) k = None) →
   body_error partial_content = None →
   ∃ σ', _file_downloader (answers partial_content) params_info (one_queued ∅) = inr σ' ∧
         files σ' !! file_path params_info = Some (concat (body partial_content)) ∧
         description <$> bars σ' !! progress_task params_info
         = (fun _ => finished (file_name params_info) (content_length partial_content))
             <$> bars (one_queued ∅) !! progress_task params_info ∧
         logged σ'
         = logged (one_queued ∅)
             ++ [(INFO, completed_message partial_content (file_name params_info))])
  ∧ (status partial_content ≠ 200%Z →
     ∃ σ', _file_downloader (answers partial_content) params_info (one_queued ∅) = inr σ' ∧
           files σ' !! file_path params_info = Some [] ∧
           description <$> bars σ' !! progress_task params_info
           = (fun _ => unable (file_name params_info) (status partial_content))
               <$> bars (one_queued ∅) !! progress_task params_info ∧
           logged σ'
           = logged (one_queued ∅) ++ [(ERROR, failure_message partial_content params_info)]).
Proof.
  apply (only_status_200_succeeds (answers partial_content) params_info (one_queued ∅)
           partial_content); reflexivity.
Defined.

(** A server that answers 404, and a destination that already exists. *)
Definition not_found : Response := mkResponse 404 "Not Found" None [] None.

Definition old_file : gmap str bytes :=
  {[ "/data/llama-2-7b/params.json" := "old contents"%bytes ]}.

(** C1 (failing input): the server answers 404.  The task ends as unable
    to download, but [aiofiles.open(file_path, "wb")] stands in the same
    [async with] as the request and runs before the status is looked at:
    a destination that exists is emptied, and one that does not exist is
    created empty. *)
Theorem failed_download_empties_destination :
  ¬ (200 ≤ status not_found ≤ 299)%Z ∧
  old_file !! "/data/llama-2-7b/params.json" = Some "old contents"%bytes ∧
  (∃ σ', _file_downloader (answers not_found) params_info (one_queued old_file) = inr σ' ∧
         description <$> bars σ' !! 0%nat
         = Some "[red]Unable to download [b]params.json[/b] - 404" ∧
         files σ' !! "/data/llama-2-7b/params.json" = Some []) ∧
  (∃ σ', _file_downloader (answers not_found) params_info (one_queued ∅) = inr σ' ∧
         (∅ : gmap str bytes) !! "/data/llama-2-7b/params.json" = None ∧
         files σ' !! "/data/llama-2-7b/params.json" = Some []).
Proof.
  split; [cbn; lia|]. split; [reflexivity|]. split.
  - eexists. split; [reflexivity|]. split; reflexivity.
  - eexists. split; [reflexivity|]. split; reflexivity.
Qed.

(** ** A batch of downloads *)

(** The end of the [async with] blocks and what follows: the file is
    closed (after a download, what is left in the buffer is flushed),
    then the line gets its last description. *)
Definition close_and_conclude (w : World) (fi : FileInfo) (response : Response)
    (σ : state) : exn + state :=
  match step w fi (Closing response) σ with
  | inl e => inl e
  | inr (_, σ) => inr σ
  end.

(** The rest of a coroutine, run without interleaving. *)
Definition finish (w : World) (fi : FileInfo) (c : coroutine) (σ : state) : exn + state :=
  match c with
  | Created => _file_downloader w fi σ
  | Streaming response k rest =>
      match stream w fi k rest σ with
      | inl e => inl e
      | inr σ =>
          match body_error response with
          | Some e => inl e
          | None => close_and_conclude w fi response (announce fi response σ)
          end
      end
  | Closing response => close_and_conclude w fi response σ
  | Done => inr σ
  end.

Definition nothing : state := mkState ∅ [] [].

(** The exception with which the rest of a coroutine ends, if any. *)
Definition fate (w : World) (fi : FileInfo) (c : coroutine) : option exn :=
  match finish w fi c nothing with
  | inl e => Some e
  | inr _ => None
  end.






Section batch_facts.
Context (w : World).

(** Whether the loop raises does not depend on the state. *)
Lemma stream_raises fi k chunks σ σ' :
  match stream w fi k chunks σ, stream w fi k chunks σ' with
  | inl e, inl e' => e = e'
  | inr _, inr _ => True
  | _, _ => False
  end.
Proof.
  revert k σ σ'. induction chunks as [|data rest IH]; intros k σ σ'; [done|].
  cbn [stream]. destruct (write_error w (file_path fi) k); [done|]. apply IH.
Qed.

Lemma close_raises fi response σ σ' :
  match close_and_conclude w fi response σ, close_and_conclude w fi response σ' with
  | inl e, inl e' => e = e'
  | inr _, inr _ => True
  | _, _ => False
  end.
Proof.
  unfold close_and_conclude. cbn [step]. destruct (status response =? 200)%Z; [|done].
  by destruct (write_error w (file_path fi) (length (body response))).
Qed.

Lemma finish_raises fi c σ σ' :
  match finish w fi c σ, finish w fi c σ' with
  | inl e, inl e' => e = e'
  | inr _, inr _ => True
  | _, _ => False
  end.
Proof.
  destruct c as [|response k rest|response|]; cbn [finish]; [| |apply close_raises|done].
  - unfold _file_downloader. destruct (http_get w (file_url fi)) as [|response]; [done|].
    destruct (open_error w (file_path fi)); [done|].
    destruct (status response =? 200)%Z; [|done].
    pose proof (stream_raises fi 0 (body response)
                  (begin fi response (opened_wb fi σ))
                  (begin fi response (opened_wb fi σ'))) as H.
    destruct (stream w fi 0 (body response) (begin fi response (opened_wb fi σ))),
             (stream w fi 0 (body response) (begin fi response (opened_wb fi σ')));
      try done.
    destruct (body_error response); [done|].
    by destruct (write_error w (file_path fi) (length (body response))).
  - pose proof (stream_raises fi k rest σ σ') as H.
    destruct (stream w fi k rest σ), (stream w fi k rest σ'); try done.
    destruct (body_error response); [done|]. apply close_raises.
Qed.

Lemma fate_Some fi c e σ : fate w fi c = Some e <-> finish w fi c σ = inl e.
Proof.
  unfold fate. pose proof (finish_raises fi c nothing σ) as H.
  destruct (finish w fi c nothing), (finish w fi c σ); try done;
    split; intros G; by simplify_eq.
Qed.

Lemma fate_None fi c σ : fate w fi c = None <-> ∃ σ', finish w fi c σ = inr σ'.
Proof.
  unfold fate. pose proof (finish_raises fi c nothing σ) as H.
  destruct (finish w fi c nothing), (finish w fi c σ); try done;
    split; [intros G; by simplify_eq|intros [? G]; by simplify_eq| |]; eauto.
Qed.

(** The two halves of the end of a branch make the end that
    [_file_downloader] has. *)
Lemma conclude_announce fi response σ :
  conclude fi response (announce fi response σ)
  = if (status response =? 200)%Z then succeed fi response σ else fail fi response σ.
Proof. unfold conclude, announce, succeed, fail. by destruct (status response =? 200)%Z. Qed.

(** A turn of a coroutine is a part of its run. *)
Lemma finish_step fi c σ :
  match step w fi c σ with
  | inl e => finish w fi c σ = inl e
  | inr (c', σ') => finish w fi c σ = finish w fi c' σ'
  end.
Proof.
  destruct c as [|response k [|data rest]|response|]; cbn [finish stream]; [| | | |done].
  - cbn [step]. unfold _file_downloader.
    destruct (http_get w (file_url fi)) as [|response]; [done|].
    destruct (open_error w (file_path fi)); [done|].
    destruct (status response =? 200)%Z eqn:Hst; cbn [finish].
    + destruct (stream w fi 0 (body response) _) as [|σ1]; [done|].
      destruct (body_error response); [done|].
      unfold close_and_conclude. cbn [step]. rewrite Hst.
      destruct (write_error w (file_path fi) (length (body response))); [done|].
      by rewrite conclude_announce, Hst.
    + unfold close_and_conclude. cbn [step]. by rewrite Hst, conclude_announce, Hst.
  - cbn [step]. by destruct (body_error response).
  - cbn [step]. by destruct (write_error w (file_path fi) k).
  - unfold close_and_conclude. cbn [step]. destruct (status response =? 200)%Z; [|done].
    by destruct (write_error w (file_path fi) (length (body response))).
Qed.

Lemma fate_step fi c σ :
  match step w fi c σ with
  | inl e => fate w fi c = Some e
  | inr (c', σ') => fate w fi c' = fate w fi c
  end.
Proof.
  pose proof (finish_step fi c σ) as H.
  destruct (step w fi c σ) as [e|[c' σ']].
  - by apply (fate_Some fi c e σ).
  - destruct (fate w fi c) as [e|] eqn:E.
    + apply (fate_Some fi c e σ) in E. apply (fate_Some fi c' e σ'). congruence.
    + apply (fate_None fi c σ) in E as [σ1 E]. apply (fate_None fi c' σ').
      exists σ1. congruence.
Qed.



End batch_facts.

Section gather_facts.
Context (w : World).

Lemma fate_Done fi : fate w fi Done = None.
Proof. reflexivity. Qed.

(** An exception that ends the batch is the fate of one of its tasks. *)
Lemma gather_raises_fate schedule tasks σ e i rest tasks' σ' :
  gather w schedule tasks σ = BatchRaises e i rest tasks' σ' →
  ∃ fi c, (fi, c) ∈ tasks ∧ fate w fi c = Some e.
Proof.
  revert tasks σ. induction schedule as [|j schedule IH]; intros tasks σ; cbn [gather].
  - by destruct (forallb is_done tasks).
  - destruct (tasks !! j) as [[fi c]|] eqn:Hj; [|apply IH].
    pose proof (fate_step w fi c σ) as Hf.
    destruct (step w fi c σ) as [e0|[c' σ1]].
    + intros [= -> _ _ _ _]. exists fi, c. split; [|done]. by eapply list_elem_of_lookup_2.
    + intros (fi' & c'' & Hin & Hfate)%IH.
      apply list_elem_of_lookup in Hin as [k Hk].
      apply list_lookup_insert_Some in Hk as [(-> & [= <- <-] & _)|[_ Hk]].
      * exists fi, c. split; [by eapply list_elem_of_lookup_2|congruence].
      * exists fi', c''. split; [by eapply list_elem_of_lookup_2|done].
Qed.














End gather_facts.

Section completion.
Context (w : World).




End completion.

Section download_files_facts.
Context (w : World).





End download_files_facts.





Definition every_file_answered : World :=
  answers (mkResponse 403 "Forbidden" None [] None).


Example forbidden_batch_ends :
  match download_files every_file_answered [0; 1; 2; 3; 3; 2; 1; 0]%nat ["."]
          "https://host/{0}" "/data" ∅ [] with
  | DownloadReturns _ σ => description <$> bars σ
  | _ => []
  end
  = [ "[red]Unable to download [b]LICENSE[/b] - 403";
      "[red]Unable to download [b]USE_POLICY.md[/b] - 403";
      "[red]Unable to download [b]tokenizer.model[/b] - 403";
      "[red]Unable to download [b]tokenizer_checklist.chk[/b] - 403" ].
Proof. vm_compute. reflexivity. Qed.

(** A write that fails in the middle of a download, while two other
    files are on their way: the exception of the write leaves
    [download_files], the file that had returned keeps its last line and
    the two others are cancelled. *)
Definition third_write_fails : World :=
  mkWorld
    (fun url =>
       if decide (url = "https://host/./LICENSE")
       then inr (mkResponse 200 "OK" (Some 8%Z)
                   ["ab"%bytes; "cd"%bytes; "ef"%bytes; "gh"%bytes] None)
       else inr (mkResponse 404 "Not Found" None [] None))
    (fun _ => None)
    (fun _ k => if decide (k = 2%nat) then Some (OSError "No space left on device") else None)
    epoll.

Example failed_write_ends_the_batch :
  match download_files third_write_fails [0; 1; 0; 1; 2; 0; 0; 2; 3]%nat ["."]
          "https://host/{0}" "/data" ∅ [] with
  | DownloadRaises e endings display => Some (e, endings, description <$> display)
  | _ => None
  end
  = Some (OSError "No space left on device",
          [Failed (OSError "No space left on device"); Returned; Returned; Cancelled],
          [ "[yellow]Downloading [b]LICENSE[/b]";
            "[red]Unable to download [b]USE_POLICY.md[/b] - 404";
            "[red]Unable to download [b]tokenizer.model[/b] - 404";
            "[blue]Queued [b]tokenizer_checklist.chk[/b]" ]).
Proof. vm_compute. reflexivity. Qed.

(** * Further properties *)

(** ** The records of the manifests *)

(** The two parts that [add_record] takes from a line. *)
Definition line_digest (md : str) : str := PyStr.slice_to md (PyStr.rfind md "  ").
Definition line_path (path md : str) : str :=
  path ++ "/" ++ PyStr.slice_from md (PyStr.rfind md "  " + 2).

Section dict_facts.
Context {V : Type}.

Lemma get_set_eq (d : list (str * V)) (k : str) (v : V) :
  Dict.get (Dict.set d k v) k = Some v.
Proof.
  induction d as [|[k0 v0] d IH]; cbn.
  - by rewrite decide_True.
  - destruct (decide (k0 = k)) as [->|Hk]; cbn; [by rewrite decide_True|by rewrite decide_False].
Qed.

Lemma get_set_ne (d : list (str * V)) (k k' : str) (v : V) :
  k ≠ k' → Dict.get (Dict.set d k v) k' = Dict.get d k'.
Proof.
  intros Hne. induction d as [|[k0 v0] d IH]; cbn.
  - by rewrite decide_False.
  - destruct (decide (k0 = k)) as [->|Hk]; cbn.
    + by rewrite !decide_False.
    + destruct (decide (k0 = k')); [done|apply IH].
Qed.

Lemma keys_set (d : list (str * V)) (k : str) (v : V) :
  Dict.keys (Dict.set d k v)
  = if bool_decide (k ∈ Dict.keys d) then Dict.keys d else Dict.keys d ++ [k].
Proof.
  unfold Dict.keys. induction d as [|[k0 v0] d IH]; cbn.
  - by rewrite bool_decide_eq_false_2 by apply not_elem_of_nil.
  - destruct (decide (k0 = k)) as [->|Hk]; cbn.
    + by rewrite bool_decide_eq_true_2 by left.
    + rewrite IH. case_bool_decide as Hin.
      * by rewrite bool_decide_eq_true_2 by (by right).
      * rewrite bool_decide_eq_false_2; [done|].
        intros [->|?]%elem_of_cons; done.
Qed.

Lemma keys_set_NoDup (d : list (str * V)) (k : str) (v : V) :
  NoDup (Dict.keys d) → NoDup (Dict.keys (Dict.set d k v)).
Proof.
  intros Hnd. rewrite keys_set. case_bool_decide as Hin; [done|].
  apply NoDup_app. split_and!; [done| |apply NoDup_singleton].
  intros x Hx ->%list_elem_of_singleton. done.
Qed.

End dict_facts.

Section record_facts.

Lemma add_record_unfold (path md : str) (md_list : list (str * str)) :
  add_record path md_list md
  = if bool_decide (md ≠ []) then Dict.set md_list (line_path path md) (line_digest md)
    else md_list.
Proof.
  unfold add_record, line_path, line_digest. destruct md as [|c md]; [done|].
  rewrite bool_decide_eq_true_2 by (cbn; lia). by rewrite bool_decide_eq_true_2.
Qed.

End record_facts.

(** The last line for a path decides its digest: when no line after [md]
    names the path of [md], the records of the manifest give that path the
    digest of [md], whatever stood before. *)
Theorem last_record_decides (path md : str) (before after : list str)
    (md_list : list (str * str)) :
  md ≠ [] →
  (∀ md', md' ∈ after → md' ≠ [] → line_path path md' ≠ line_path path md) →
  Dict.get (foldl (add_record path) md_list (before ++ md :: after)) (line_path path md)
  = Some (line_digest md).
Proof.
  intros Hmd Hafter. rewrite foldl_app. cbn [foldl].
  generalize (foldl (add_record path) md_list before) as acc. intros acc.
  assert (Dict.get (add_record path acc md) (line_path path md) = Some (line_digest md)) as H.
  { rewrite add_record_unfold, bool_decide_eq_true_2 by done. apply get_set_eq. }
  revert H. generalize (add_record path acc md) as acc'. clear acc.
  induction after as [|md' after IH]; intros acc' H; [done|].
  cbn [foldl]. apply IH.
  - intros md'' Hin. apply Hafter. by right.
  - rewrite add_record_unfold. case_bool_decide as Hne; [|done].
    rewrite get_set_ne; [done|]. apply Hafter; [left|done].
Qed.

Lemma last_record_decides_twice :
  Dict.get
    (foldl (add_record "/data") []
       (["11111111111111111111111111111111  a.bin"]
          ++ "22222222222222222222222222222222  a.bin"
          :: ["33333333333333333333333333333333  b.bin"]))
    (line_path "/data" "22222222222222222222222222222222  a.bin")
  = Some (line_digest "22222222222222222222222222222222  a.bin").
Proof.
  apply (last_record_decides "/data" "22222222222222222222222222222222  a.bin"
           ["11111111111111111111111111111111  a.bin"]
           ["33333333333333333333333333333333  b.bin"] []).
  - discriminate.
  - intros md' ->%list_elem_of_singleton _. vm_compute. discriminate.
Defined.

(** Empty lines make no record, wherever they stand (so a newline at the
    end of a manifest changes nothing). *)
Theorem blank_lines_ignored (file text : str) (md_list : list (str * str)) :
  add_manifest file text md_list
  = foldl (add_record (PyStr.slice_to file (PyStr.rfind file "/"))) md_list
      (filter (fun md => md ≠ []) (PyStr.split text PyStr.nl))
  ∧ add_manifest file (text ++ [PyStr.nl]) md_list = add_manifest file text md_list.
Proof.
  assert (∀ path lines acc,
            foldl (add_record path) acc lines
            = foldl (add_record path) acc (filter (fun md : str => md ≠ []) lines)) as Hf.
  { intros path lines. induction lines as [|md lines IH]; intros acc; [done|].
    rewrite filter_cons. cbn [foldl]. destruct md as [|c md].
    - rewrite decide_False by (intros H; by apply H). apply IH.
    - rewrite decide_True by done. cbn [foldl]. apply IH. }
  assert (∀ s sep, PyStr.split (s ++ [sep]) sep = PyStr.split s sep ++ [[]]) as Hs.
  { intros s sep. induction s as [|c s IH]; cbn [PyStr.split app].
    - rewrite N.eqb_refl. reflexivity.
    - destruct (N.eqb c sep); rewrite IH; [done|].
      assert (PyStr.split s sep ≠ []) as Hne.
      { destruct s as [|c' s']; cbn [PyStr.split]; [done|].
        destruct (N.eqb c' sep); [done|]. by destruct (PyStr.split s' sep). }
      by destruct (PyStr.split s sep). }
  split.
  - unfold add_manifest. apply Hf.
  - unfold add_manifest. rewrite Hs, foldl_app. cbn [foldl].
    by rewrite add_record_unfold, bool_decide_eq_false_2 by (intros H; by apply H).
Qed.

(** ** The pass over the targets *)

(** The line printed for a record is its OK line or a mismatch line. *)
Definition reports (line : str) (record : str * str) : Prop :=
  line = ok_line record.1 ∨ ∃ actual, line = mismatch_line record.1 record.2 actual.

Section pass_facts.
Context (d : Disk).

(** Once [md5_hash] has a value, the pass goes through every record. *)
Lemma check_targets_bound md_list h log printed :
  v_raised (check_targets d md_list (Some h) log printed) = None ∧
  ∃ lines, v_printed (check_targets d md_list (Some h) log printed) = printed ++ lines ∧
           Forall2 reports lines md_list.
Proof.
  revert h log printed.
  induction md_list as [|[file_path md_origin] rest IH]; intros h log printed.
  - split; [done|]. exists []. by rewrite app_nil_r.
  - cbn [check_targets].
    destruct (read_binary d file_path) as [e|data [e|]]; case_bool_decide;
      match goal with
      | |- context [check_targets d rest (Some ?h') ?log' (printed ++ [?line])] =>
          destruct (IH h' log' (printed ++ [line])) as (Hr & lines & Hp & Hl);
          (split; [done|]); exists (line :: lines);
          (split; [by rewrite Hp, <- app_assoc|]);
          constructor; [|done]
      end; unfold reports; cbn; eauto.
Qed.

End pass_facts.

(** The pass over the targets is abandoned in one case only: when the
    first target cannot be opened ([md5_hash] has no value yet).  In every
    other case it raises nothing and prints one line for every record, in
    the order of the records, be the targets readable or not. *)
Theorem pass_abandoned_only_at_first_target (d : Disk) (md_list : list (str * str)) :
  v_raised (check_targets d md_list None [] [])
  = match md_list with
    | (file_path, _) :: _ =>
        match read_binary d file_path with
        | Unreadable _ => Some (UnboundLocalError "md5_hash")
        | Readable _ _ => None
        end
    | [] => None
    end
  ∧ (v_raised (check_targets d md_list None [] []) = None →
     Forall2 reports (v_printed (check_targets d md_list None [] [])) md_list).
Proof.
  destruct md_list as [|[file_path md_origin] rest]; [by split|].
  cbn [check_targets].
  destruct (read_binary d file_path) as [e|data [e|]]; [by split|..]; case_bool_decide;
    match goal with
    | |- context [check_targets d rest (Some ?h') ?log' ([] ++ [?line])] =>
        destruct (check_targets_bound d rest h' log' ([] ++ [line])) as (Hr & lines & Hp & Hl);
        (split; [done|]); intros _; rewrite Hp; cbn; constructor; [|done]
    end; unfold reports; cbn; eauto.
Qed.

(** ** The text of a digest *)

Definition hex_characters : str := "0123456789abcdef".

Section digest_facts.

Lemma hex_shape (bs : list Z) :
  length (MD5.hex bs) = (2 * length bs)%nat ∧
  Forall (fun c => c ∈ hex_characters) (MD5.hex bs).
Proof.
  assert (∀ x, MD5.hex_digit x ∈ hex_characters) as Hd.
  { intros x. unfold MD5.hex_digit, hex_characters.
    destruct (nth_in_or_default (Z.to_nat x) "0123456789abcdef" "0"%char) as [H|H].
    - by apply list_elem_of_In.
    - rewrite H. compute_done. }
  unfold MD5.hex. induction bs as [|b bs [IHl IHf]]; [by split|].
  cbn [flat_map app length]. split; [lia|].
  apply Forall_cons. split; [apply Hd|]. apply Forall_cons. split; [apply Hd|done].
Qed.

Lemma le_bytes_length (n : nat) (x : Z) : length (MD5.le_bytes n x) = n.
Proof. unfold MD5.le_bytes. by rewrite length_map, length_seq. Qed.

(** A digest is written as 32 characters among [0-9a-f]. *)
Lemma hexdigest_shape (h : MD5.md5_object) :
  length (MD5.hexdigest h) = 32%nat ∧
  Forall (fun c => c ∈ hex_characters) (MD5.hexdigest h).
Proof.
  unfold MD5.hexdigest. destruct (hex_shape (MD5.digest (MD5.fed h))) as [Hl Hf].
  split; [|done]. rewrite Hl. unfold MD5.digest.
  destruct (MD5.process _ _ _) as [a b c e].
  by rewrite !length_app, !le_bytes_length.
Qed.

End digest_facts.

(** An expected digest that is not made of 32 characters among [0-9a-f]
    (capitals, a digest of another kind, a cut line) is never found equal:
    the readable target is reported as a mismatch, whatever it holds. *)
Theorem ill_formed_digest_never_matches (d : Disk) (file_path md_origin : str)
    (data : bytes) (rest : list (str * str)) (md5_hash : option MD5.md5_object)
    (log : list (level * str)) (printed : list str) :
  read_binary d file_path = Readable data None →
  length md_origin ≠ 32%nat ∨ ¬ Forall (fun c => c ∈ hex_characters) md_origin →
  check_targets d ((file_path, md_origin) :: rest) md5_hash log printed
  = check_targets d rest (Some (hash_file data))
      (log ++ [(ERROR, mismatch_line file_path md_origin (MD5.hexdigest (hash_file data)))])
      (printed ++ [mismatch_line file_path md_origin (MD5.hexdigest (hash_file data))]).
Proof.
  intros Hread Hbad. cbn [check_targets]. rewrite Hread.
  rewrite bool_decide_eq_false_2; [done|].
  intros Heq. destruct (hexdigest_shape (hash_file data)) as [Hl Hf].
  rewrite Heq in Hl, Hf. by destruct Hbad.
Qed.

Lemma ill_formed_digest_never_matches_sha1 :
  check_targets empty_target
    [("/data/empty.bin", "da39a3ee5e6b4b0d3255bfef95601890afd80709")] None [] []
  = check_targets empty_target [] (Some (hash_file []))
      ([] ++ [(ERROR, mismatch_line "/data/empty.bin"
                        "da39a3ee5e6b4b0d3255bfef95601890afd80709"
                        (MD5.hexdigest (hash_file [])))])
      ([] ++ [mismatch_line "/data/empty.bin" "da39a3ee5e6b4b0d3255bfef95601890afd80709"
                (MD5.hexdigest (hash_file []))]).
Proof.
  apply (ill_formed_digest_never_matches empty_target "/data/empty.bin"
           "da39a3ee5e6b4b0d3255bfef95601890afd80709" [] [] None [] []).
  - reflexivity.
  - left. cbn. lia.
Defined.

(** ** A manifest and its file *)

Lemma replace_absent (s : str) (old : char) (new : str) :
  old ∉ s → PyStr.replace s old new = s.
Proof.
  unfold PyStr.replace. induction s as [|c s IH]; [done|].
  intros [Hc Hs]%not_elem_of_cons. cbn [flat_map].
  destruct (N.eqb_spec c old); [congruence|]. cbn. by rewrite IH.
Qed.

(** A manifest [dir/name] with the line [digest  p], and the file [dir/p]
    with the bytes [data]. *)
Definition manifest_and_file (dir name p digest : str) (data : bytes) : Disk :=
  mkDisk
    (fun file => if decide (file = dir ++ "/" ++ name) then inr (digest ++ "  " ++ p)
                 else inl no_such_file)
    (fun file_path => if decide (file_path = dir ++ "/" ++ p) then Readable data None
                      else Unreadable no_such_file)
    (fun _ => []).

(** Round trip: when the manifest [dir/name] holds the line [digest  p]
    and is among the files handed to [verify_md5], the file [dir/p] is
    reported OK exactly when [digest] is the MD5 of its bytes in lower-case
    hexadecimal; otherwise the mismatch line shows [digest] as it stands
    in the manifest and the digest of the file. *)
Theorem manifest_digest_round_trip (d : Disk) (chk_folder dir name p digest : str)
    (data : bytes) (fi : FileInfo) :
  file_path fi = dir ++ "/" ++ name →
  PyStr.backslash ∉ dir ++ "/" ++ name →
  "/"%char ∉ name →
  is_chk (dir ++ "/" ++ name) = true →
  PyStr.nl ∉ digest ++ "  " ++ p →
  PyStr.contains (" " ++ p) "  " = false →
  read_text d (dir ++ "/" ++ name) = inr (digest ++ "  " ++ p) →
  read_binary d (dir ++ "/" ++ p) = Readable data None →
  verify_md5 d chk_folder [fi]
  = ([dir ++ "/" ++ name],
     if bool_decide (MD5.hex (MD5.digest data) = digest)
     then mkVerification [(INFO, ok_line (dir ++ "/" ++ p))] [ok_line (dir ++ "/" ++ p)] None
     else mkVerification
            [(ERROR, mismatch_line (dir ++ "/" ++ p) digest (MD5.hex (MD5.digest data)))]
            [mismatch_line (dir ++ "/" ++ p) digest (MD5.hex (MD5.digest data))] None).
Proof.
  intros Hpath Hback Hname Hchk Hnl Hlast Htext Hbin.
  unfold verify_md5, retrieved, verify_files. cbn [length bool_decide].
  rewrite bool_decide_eq_true_2 by (cbn; lia).
  cbn [fmap list_fmap]. unfold FileInfo_str. rewrite Hpath.
  rewrite filter_cons, decide_True by done. rewrite filter_nil.
  cbn [read_manifests]. rewrite replace_absent by done. rewrite Htext.
  unfold add_manifest. rewrite manifest_dir by done.
  rewrite split_no_sep by done. cbn [foldl].
  rewrite add_record_separated by done. cbn [Dict.set].
  cbn [check_targets]. rewrite Hbin. rewrite !hash_file_digest.
  by case_bool_decide.
Qed.

Lemma manifest_digest_round_trip_abc :
  verify_md5
    (manifest_and_file "/data/llama-2-7b" "checklist.chk" "params.json"
       "900150983cd24fb0d6963f7d28e17f72" "abc"%bytes)
    "" [mkFileInfo "https://host/llama-2-7b/checklist.chk" "checklist.chk"
          "/data/llama-2-7b/checklist.chk" 0]
  = (["/data/llama-2-7b" ++ "/" ++ "checklist.chk"],
     if bool_decide (MD5.hex (MD5.digest "abc"%bytes) = "900150983cd24fb0d6963f7d28e17f72")
     then mkVerification [(INFO, ok_line ("/data/llama-2-7b" ++ "/" ++ "params.json"))]
            [ok_line ("/data/llama-2-7b" ++ "/" ++ "params.json")] None
     else mkVerification
            [(ERROR, mismatch_line ("/data/llama-2-7b" ++ "/" ++ "params.json")
                       "900150983cd24fb0d6963f7d28e17f72" (MD5.hex (MD5.digest "abc"%bytes)))]
            [mismatch_line ("/data/llama-2-7b" ++ "/" ++ "params.json")
               "900150983cd24fb0d6963f7d28e17f72" (MD5.hex (MD5.digest "abc"%bytes))] None).
Proof.
  apply (manifest_digest_round_trip
           (manifest_and_file "/data/llama-2-7b" "checklist.chk" "params.json"
              "900150983cd24fb0d6963f7d28e17f72" "abc"%bytes)
           "" "/data/llama-2-7b" "checklist.chk" "params.json"
           "900150983cd24fb0d6963f7d28e17f72" "abc"%bytes).
  - reflexivity.
  - compute_done.
  - compute_done.
  - reflexivity.
  - compute_done.
  - reflexivity.
  - reflexivity.
  - reflexivity.
Defined.

Example round_trip_reports_ok :
  (verify_md5
     (manifest_and_file "/data/llama-2-7b" "checklist.chk" "params.json"
        "900150983cd24fb0d6963f7d28e17f72" "abc"%bytes)
     "" [mkFileInfo "https://host/llama-2-7b/checklist.chk" "checklist.chk"
           "/data/llama-2-7b/checklist.chk" 0]).2
  = mkVerification [(INFO, "/data/llama-2-7b/params.json is OK")]
      ["/data/llama-2-7b/params.json is OK"] None.
Proof. vm_compute. reflexivity. Qed.

(** ** More on the file list *)

Section more_file_list_facts.

Lemma add_models_same_groups catalog models models' url base_path acc :
  (∀ g, g ∈ Dict.keys catalog → g ∈ models <-> g ∈ models') →
  add_models catalog models url base_path acc
  = add_models catalog models' url base_path acc.
Proof.
  revert acc. induction catalog as [|[model files] catalog IH]; intros acc Hsame; [done|].
  cbn [add_models].
  assert (bool_decide (model ∈ models) = bool_decide (model ∈ models')) as ->.
  { apply bool_decide_ext, Hsame. left. }
  destruct (if bool_decide (model ∈ models') then _ else _) as [acc'| |]; [|done|done].
  cbn [mbind outcome_bind]. apply IH. intros g Hg. apply Hsame. by right.
Qed.

Lemma described_names url base_path file_list E :
  Forall2 (describes url base_path) file_list E → file_name <$> file_list = E.*2.
Proof.
  induction 1 as [|fi e fl E' (_ & Hn & _) _ IH]; [done|]. cbn. by rewrite Hn, IH.
Qed.


Lemma format_go_starred (nb : PyStr.numbering) (url arg : str) :
  nb ≠ PyStr.Automatic → no_braces url →
  PyStr.format_go nb (PyStr.replace url "*" "{0}") arg
  = Returns (PyStr.replace url "*" arg).
Proof.
  intros Hnb [Ho Hc]. revert nb Hnb. induction url as [|c url IH]; intros nb Hnb; [done|].
  apply not_elem_of_cons in Ho as [Ho1 Ho]. apply not_elem_of_cons in Hc as [Hc1 Hc].
  unfold PyStr.replace. cbn [flat_map]. fold (PyStr.replace url "*" "{0}").
  fold (PyStr.replace url "*" arg). destruct (N.eqb_spec c "*"%char) as [->|Hstar].
  - change (PyStr.format_go nb ("{0}" ++ PyStr.replace url "*" "{0}") arg)
      with (match nb with
            | PyStr.Automatic =>
                Raises (ValueError
                  "cannot switch from automatic field numbering to manual field specification")
            | _ => PyStr.format_app arg
                     (PyStr.format_go PyStr.Manual (PyStr.replace url "*" "{0}") arg)
            end).
    rewrite (IH Ho Hc PyStr.Manual) by done. by destruct nb.
  - change ([c] ++ PyStr.replace url "*" "{0}") with (c :: PyStr.replace url "*" "{0}").
    rewrite format_go_plain_char by done. by rewrite (IH Ho Hc nb).
Qed.

Lemma contains_app_l (s t sub : str) :
  PyStr.contains s sub = true → PyStr.contains (s ++ t) sub = true.
Proof.
  intros (j & Hj & [k Hk])%contains_spec. apply contains_spec.
  exists j. split; [rewrite length_app; lia|].
  rewrite drop_app_le by done. rewrite Hk. exists (k ++ t). by rewrite <- app_assoc.
Qed.

(** A pattern cannot lie across a character that it does not hold. *)
Lemma contains_across (a b sub : str) (c : char) :
  c ∉ sub →
  PyStr.contains (a ++ c :: b) sub = PyStr.contains a sub || PyStr.contains b sub.
Proof.
  intros Hc. apply eq_true_iff_eq. rewrite orb_true_iff, !contains_spec. split.
  - intros (j & Hj & [k Hk]).
    destruct (decide (j ≤ length a)%nat) as [Hle|Hgt].
    + rewrite drop_app_le in Hk by done.
      apply app_eq_app in Hk as [l [[Hx Hy]|[Hx Hy]]].
      * left. exists j. split; [done|]. exists l. done.
      * destruct l as [|c' l].
        -- left. exists j. split; [done|]. exists []. by rewrite Hx, !app_nil_r.
        -- injection Hy as -> _. exfalso. apply Hc. rewrite Hx.
           apply elem_of_app. right. left.
    + right. exists (j - length a - 1)%nat. rewrite length_app in Hj. cbn in Hj.
      split; [lia|]. exists k. rewrite <- Hk.
      replace j with (length a + S (j - length a - 1))%nat at 2 by lia.
      by rewrite drop_app_add.
  - intros [(j & Hj & [k Hk])|(j & Hj & [k Hk])].
    + exists j. split; [rewrite length_app; lia|].
      rewrite drop_app_le by done. rewrite Hk. exists (k ++ c :: b). by rewrite <- app_assoc.
    + exists (length a + S j)%nat. split; [rewrite length_app; cbn; lia|].
      rewrite drop_app_add. cbn. by exists k.
Qed.

Lemma FILES_manifest_names :
  Forall (fun e => is_chk (relative e) = is_chk e.2) (all_entries FILES).
Proof. compute_done. Qed.

End more_file_list_facts.

(** [download_files] looks at [models] only to see which groups of the
    catalogue it holds: the order of the names, repeated names and names
    that are not in the catalogue change nothing (a name that is not in
    the catalogue is passed over without an error). *)
Theorem file_list_depends_on_catalogue_groups (w : World) (schedule : list nat)
    (models models' : list str) (url base_path : str)
    (disk : gmap str bytes) (logs : list (level * str)) :
  (∀ g, g ∈ Dict.keys FILES → g ∈ models <-> g ∈ models') →
  build_file_list models url base_path = build_file_list models' url base_path ∧
  download_files w schedule models url base_path disk logs
  = download_files w schedule models' url base_path disk logs.
Proof.
  intros Hsame.
  assert (build_file_list models url base_path = build_file_list models' url base_path) as H
    by by apply add_models_same_groups.
  split; [done|]. unfold download_files. by rewrite H.
Qed.

Lemma file_list_depends_on_catalogue_groups_shuffled :
  build_file_list ["llama-2-7b"; "."; "7B"; "."] "https://host/{0}" "/data"
  = build_file_list ["."; "llama-2-7b"] "https://host/{0}" "/data" ∧
  download_files every_file_answered [0%nat] ["llama-2-7b"; "."; "7B"; "."]
    "https://host/{0}" "/data" ∅ []
  = download_files every_file_answered [0%nat] ["."; "llama-2-7b"]
      "https://host/{0}" "/data" ∅ [].
Proof.
  apply (file_list_depends_on_catalogue_groups every_file_answered [0%nat]
           ["llama-2-7b"; "."; "7B"; "."] ["."; "llama-2-7b"] "https://host/{0}" "/data" ∅ []).
  apply Forall_forall. compute_done.
Defined.

(** Every file gets a line of its own on the display, in the order of the
    list: the task ids are 0, 1, 2, ..., and each line starts as queued
    under the file's name, with the total 100, at 0 and not started. *)
Theorem file_list_display_lines (models : list str) (url base_path : str)
    (file_list : list FileInfo) (progress : list bar) :
  build_file_list models url base_path = Returns (file_list, progress) →
  progress_task <$> file_list = seq 0 (length file_list) ∧
  progress = (fun fi => mkBar (queued (file_name fi)) (Some 100%Z) 0%Z false) <$> file_list.
Proof.
  intros (new & Hfl & Hd & Hid & Hpr)%add_models_spec.
  rewrite app_nil_l in Hfl, Hpr. subst new. cbn [length] in Hid.
  pose proof (Forall2_length _ _ _ Hd) as Hlen. split; [by rewrite Hlen|].
  rewrite Hpr. clear Hid Hpr Hlen.
  induction Hd as [|fi e fl E' (_ & Hn & _) _ IH]; [done|].
  cbn. rewrite IH. unfold queued_bar. by rewrite Hn.
Qed.

Lemma file_list_display_lines_root :
  ∃ file_list progress,
    build_file_list ["."] "https://host/{0}" "/data" = Returns (file_list, progress) ∧
    progress_task <$> file_list = seq 0 (length file_list) ∧
    progress
    = (fun fi => mkBar (queued (file_name fi)) (Some 100%Z) 0%Z false) <$> file_list.
Proof.
  eexists _, _. split; [vm_compute; reflexivity|].
  apply (file_list_display_lines ["."] "https://host/{0}" "/data").
  vm_compute. reflexivity.
Defined.

(** The URL pasted from the email: when it holds no brace, [main_prompt]
    builds the file list for every answer made of known options whose
    group directories are there or can be made, and the URL of each file
    is the pasted URL with every [*] replaced by [group/file] (so a URL
    without [*] is the URL of every file). *)
Theorem pasted_url_is_filled (mkdir_error : str -> option exn) (base url models : str)
    (dirs : gset str) :
  no_braces url →
  Forall known (requested_models models) →
  Forall (can_make mkdir_error base dirs) (requested_models models) →
  ∃ file_list,
    main_prompt_files mkdir_error base url models dirs = Returns file_list ∧
    Forall2 (fun fi e =>
               file_url fi = PyStr.replace url "*" (e.1 ++ "/" ++ e.2) ∧
               file_name fi = e.2 ∧
               file_path fi = destination base e.1 e.2)
      file_list
      (entries FILES (["."] ++ omap (Dict.get user_entry) (requested_models models))).
Proof.
  intros Hurl Hknown Hmk. unfold main_prompt_files, resolve, download_list_of.
  rewrite add_requested_known by done. cbn [mbind outcome_bind].
  set (download_list := ["."] ++ omap (Dict.get user_entry) (requested_models models)).
  set (url' := PyStr.replace url "*" "{0}").
  assert (∀ arg, PyStr.format url' arg = Returns (PyStr.replace url "*" arg)) as Hfmt.
  { intros arg. by apply format_go_starred. }
  destruct (add_models_returns FILES download_list url' base ([], []) _ Hfmt)
    as [[file_list progress] Hret].
  unfold build_file_list. rewrite Hret. exists file_list. split; [done|].
  apply add_models_spec in Hret as (new & Hfl & Hd & _ & _).
  rewrite app_nil_l in Hfl. subst new.
  eapply Forall2_impl; [exact Hd|]. intros fi e (Hu & Hn & Hp).
  rewrite Hfmt in Hu. by injection Hu as <-.
Qed.

Lemma pasted_url_is_filled_signed :
  ∃ file_list,
    main_prompt_files file_in_the_way "/data" "https://host/*?Policy=abc&Signature=x~y_"
      "7B,13B" {[ "/data/llama-2-7b" ]}
    = Returns file_list ∧
    Forall2 (fun fi e =>
               file_url fi
               = PyStr.replace "https://host/*?Policy=abc&Signature=x~y_" "*" (e.1 ++ "/" ++ e.2) ∧
               file_name fi = e.2 ∧
               file_path fi = destination "/data" e.1 e.2)
      file_list
      (entries FILES (["."] ++ omap (Dict.get user_entry) (requested_models "7B,13B"))).
Proof.
  apply (pasted_url_is_filled file_in_the_way "/data"
           "https://host/*?Policy=abc&Signature=x~y_" "7B,13B" {[ "/data/llama-2-7b" ]}).
  - split; compute_done.
  - compute_done.
  - apply Forall_cons. split; [|apply Forall_cons; split; [|apply Forall_nil_2]].
    + intros g Hg. vm_compute in Hg. injection Hg as <-. left. compute_done.
    + intros g Hg. vm_compute in Hg. injection Hg as <-. right. reflexivity.
Defined.

(** Which of the downloaded files [verify_md5] takes for manifests: the
    test is [".chk" in file_path] on the whole path.  When the destination
    root itself holds [".chk"], every downloaded file is taken for a
    manifest; when it does not, a file is taken for a manifest exactly
    when its name holds [".chk"]. *)
Theorem manifests_among_downloads (models : list str) (url base_path : str)
    (file_list : list FileInfo) (progress : list bar) :
  build_file_list models url base_path = Returns (file_list, progress) →
  ∀ fi, fi ∈ file_list →
    is_chk (FileInfo_str fi)
    = if PyStr.contains base_path ".chk" then true else is_chk (file_name fi).
Proof.
  intros (new & Hfl & Hd & _ & _)%add_models_spec fi Hin.
  rewrite app_nil_l in Hfl. subst new.
  assert (∃ e, e ∈ entries FILES models ∧ describes url base_path fi e) as (e & He & _ & Hn & Hp).
  { clear -Hd Hin. induction Hd as [|fi' e fl E' Hde _ IH]; [by apply elem_of_nil in Hin|].
    apply elem_of_cons in Hin as [->|Hin].
    - exists e. split; [left|done].
    - destruct (IH Hin) as (e' & He' & Hd'). exists e'. split; [by right|done]. }
  unfold FileInfo_str, is_chk. rewrite Hp, destination_relative, Hn.
  change (base_path ++ "/" ++ relative e) with (base_path ++ "/"%char :: relative e).
  rewrite contains_across by compute_done.
  destruct (PyStr.contains base_path ".chk"); [done|]. cbn [orb].
  pose proof FILES_manifest_names as Hall. rewrite Forall_forall in Hall.
  apply Hall. destruct e as [g f]. by apply elem_of_entries in He as [_ He].
Qed.

Lemma manifests_among_downloads_checklist :
  ∃ file_list progress fi,
    build_file_list ["."] "https://host/{0}" "/models.chk" = Returns (file_list, progress) ∧
    fi ∈ file_list ∧ file_name fi = "LICENSE" ∧
    is_chk (FileInfo_str fi)
    = if PyStr.contains "/models.chk" ".chk" then true else is_chk (file_name fi).
Proof.
  eexists _, _, (mkFileInfo "https://host/./LICENSE" "LICENSE" "/models.chk/LICENSE" 0).
  split; [vm_compute; reflexivity|]. split; [left|]. split; [reflexivity|].
  apply (manifests_among_downloads ["."] "https://host/{0}" "/models.chk" _ _ eq_refl).
  left.
Defined.

(** ** More on one download *)

Section stream_facts.
Context (w : World) (fi : FileInfo).

(** What the [async for] loop has done when it ends without an error. *)
Lemma stream_effect (k : nat) (chunks : list bytes) (σ σ' : state) :
  stream w fi k chunks σ = inr σ' →
  bars σ' !! progress_task fi
  = (fun b => mkBar (match chunks with
                     | [] => description b
                     | _ => downloading (file_name fi)
                     end)
                (total b) (completed b + Z.of_nat (length (concat chunks))) (started b))
      <$> bars σ !! progress_task fi ∧
  (∀ id, id ≠ progress_task fi → bars σ' !! id = bars σ !! id) ∧
  (∀ p, p ≠ file_path fi → files σ' !! p = files σ !! p) ∧
  logged σ' = logged σ ∧
  length (bars σ') = length (bars σ).
Proof.
  revert k σ. induction chunks as [|data rest IH]; intros k σ; cbn [stream].
  - intros [= <-]. split_and!; try done.
    destruct (bars σ !! progress_task fi) as [[]|]; cbn; [|done].
    do 2 f_equal. lia.
  - destruct (write_error w (file_path fi) k); [done|].
    intros (Hb & Ho & Hf & Hl & Hn)%IH. split_and!.
    + rewrite Hb. cbn [written bars]. unfold Progress.advance.
      rewrite list_lookup_alter_eq.
      destruct (bars σ !! progress_task fi) as [b|]; cbn; [|done].
      do 2 f_equal; [by destruct rest|]. rewrite length_app. lia.
    + intros id Hne. rewrite Ho by done. cbn. unfold Progress.advance.
      by rewrite list_lookup_alter_ne.
    + intros p Hne. rewrite Hf by done. cbn. by rewrite lookup_insert_ne.
    + by rewrite Hl.
    + rewrite Hn. cbn. unfold Progress.advance. by rewrite length_alter.
Qed.

Lemma begin_effect (response : Response) (σ : state) :
  bars (begin fi response σ) !! progress_task fi
  = (fun b => mkBar (description b)
                (match content_length response with Some n => Some n | None => total b end)
                (completed b) true)
      <$> bars σ !! progress_task fi ∧
  (∀ id, id ≠ progress_task fi → bars (begin fi response σ) !! id = bars σ !! id) ∧
  length (bars (begin fi response σ)) = length (bars σ).
Proof.
  cbn [begin bars]. unfold Progress.start_task, Progress.update_total. split_and!.
  - rewrite list_lookup_alter_eq. destruct (content_length response) as [n|].
    + rewrite list_lookup_alter_eq. by destruct (bars σ !! progress_task fi).
    + by destruct (bars σ !! progress_task fi).
  - intros id Hne. rewrite list_lookup_alter_ne by done.
    destruct (content_length response); [|done]. by rewrite list_lookup_alter_ne.
  - rewrite length_alter. destruct (content_length response); [|done].
    by rewrite length_alter.
Qed.

End stream_facts.

(** The line of a finished download: the count has advanced by exactly
    the number of bytes written to the file, the task is started, and its
    total is the [Content-Length] of the answer when there is one (and is
    left as it was when there is none). *)
Theorem finished_download_accounting (w : World) (fi : FileInfo) (σ : state)
    (response : Response) (b : bar) :
  http_get w (file_url fi) = inr response →
  open_error w (file_path fi) = None →
  status response = 200%Z →
  (∀ k, write_error w (file_path fi) k = None) →
  body_error response = None →
  bars σ !! progress_task fi = Some b →
  ∃ σ' b' content,
    _file_downloader w fi σ = inr σ' ∧
    files σ' !! file_path fi = Some content ∧
    bars σ' !! progress_task fi = Some b' ∧
    completed b' = (completed b + Z.of_nat (length content))%Z ∧
    started b' = true ∧
    total b' = match content_length response with Some n => Some n | None => total b end.
Proof.
  intros Hget Hopen Hst Hw Hbody Hb. unfold _file_downloader.
  rewrite Hget, Hopen, Hst, Hbody, Hw. cbn [Z.eqb Pos.eqb].
  destruct (stream_writes w fi 0 (body response) (begin fi response (opened_wb fi σ)) [])
    as (σ1 & Hs & Hf & _); [done|cbn; by rewrite lookup_insert_eq|].
  rewrite Hs. apply stream_effect in Hs as (Hb1 & _).
  destruct (begin_effect fi response (opened_wb fi σ)) as (Hb0 & _).
  cbn [opened_wb bars] in Hb0. rewrite Hb in Hb0. rewrite Hb0 in Hb1. cbn in Hb1.
  eexists _, _, _. split; [done|]. split; [exact Hf|]. split.
  - cbn [succeed bars]. unfold Progress.update_description.
    rewrite list_lookup_alter_eq, Hb1. done.
  - done.
Qed.

Definition two_chunks : Response :=
  mkResponse 200 "OK" (Some 5%Z) ["abc"%bytes; "de"%bytes] None.

Lemma finished_download_accounting_two_chunks :
  ∃ σ' b' content,
    _file_downloader (answers two_chunks) params_info (one_queued ∅) = inr σ' ∧
    files σ' !! file_path params_info = Some content ∧
    bars σ' !! progress_task params_info = Some b' ∧
    completed b'
    = (completed (mkBar (queued "params.json") (Some 100%Z) 0%Z false)
       + Z.of_nat (length content))%Z ∧
    started b' = true ∧
    total b' = match content_length two_chunks with
               | Some n => Some n
               | None => total (mkBar (queued "params.json") (Some 100%Z) 0%Z false)
               end.
Proof.
  apply (finished_download_accounting (answers two_chunks) params_info (one_queued ∅)
           two_chunks (mkBar (queued "params.json") (Some 100%Z) 0%Z false));
    reflexivity.
Defined.



(** ** The files that a batch leaves *)




Section batch_files.
Context (w : World).





End batch_files.


(** A server that answers 200 with the body "abcde" in two chunks for
    [LICENSE] and 404 for every other file. *)
Definition only_licence : World :=
  mkWorld
    (fun url => if decide (url = "https://host/./LICENSE") then inr two_chunks
                else inr not_found)
    (fun _ => None)
    (fun _ _ => None)
    epoll.


(** ** The log that a batch leaves *)





Section batch_log.
Context (w : World).







End batch_log.



(** The log of that run: the record of [main_prompt], the record of
    [asyncio.run], then the records of the four files in the order in
    which their tasks came to their end. *)
Example interleaved_log :
  match download_files only_licence [3; 0; 1; 0; 2; 0; 0; 1; 3; 0; 2]%nat ["."]
          "https://host/{0}" "/data" ∅ [(DEBUG, "Downloading the files.")] with
  | DownloadReturns _ σ => fst <$> logged σ
  | _ => []
  end
  = [DEBUG; DEBUG; ERROR; ERROR; ERROR; INFO].
Proof. vm_compute. reflexivity. Qed.

(** ** The answer to the second prompt *)

Section answer_facts.

Lemma split_snoc_sep (s : str) (sep : char) :
  PyStr.split (s ++ [sep]) sep = PyStr.split s sep ++ [[]].
Proof.
  induction s as [|c s IH]; cbn [PyStr.split app].
  - rewrite N.eqb_refl. reflexivity.
  - destruct (N.eqb c sep); rewrite IH; [done|].
    assert (PyStr.split s sep ≠ []) as Hne.
    { destruct s as [|c' s']; cbn [PyStr.split]; [done|].
      destruct (N.eqb c' sep); [done|]. by destruct (PyStr.split s' sep). }
    by destruct (PyStr.split s sep).
Qed.

(** A list of names that ends with a name that is no option raises: at
    the first name that is no option, or before it at a [mkdir] that
    fails. *)
Lemma add_requested_last_unknown mkdir_error base G m download_list dirs :
  Dict.get user_entry m = None →
  ∃ e, (add_requested mkdir_error base (G ++ [m]) download_list dirs).2 = Raises e ∧
       ((∃ m', m' ∈ G ++ [m] ∧ Dict.get user_entry m' = None ∧
               e = ValueError (m' ++ " is an unavailable option."))
        ∨ (∃ m' g, m' ∈ G ++ [m] ∧ Dict.get user_entry m' = Some g ∧
                   (model_dir base g ∉ dirs) ∧ mkdir_error (model_dir base g) = Some e)).
Proof.
  intros Hm. revert download_list dirs.
  induction G as [|x G IH]; intros download_list dirs; cbn [app add_requested].
  - rewrite Hm. eexists. split; [done|]. left. exists m. split_and!; [left|done|done].
  - destruct (Dict.get user_entry x) as [g|] eqn:Hx.
    + case_bool_decide as Hin.
      * destruct (IH (download_list ++ [g]) dirs) as (e & Hr & He).
        exists e. split; [done|].
        destruct He as [(m' & Hin' & Hm' & ->)|(m' & g' & Hin' & Hm' & Hnew & He)].
        -- left. exists m'. split_and!; [by right|done|done].
        -- right. exists m', g'. split_and!; [by right|done|done|done].
      * destruct (mkdir_error (model_dir base g)) as [e|] eqn:Hmk.
        -- exists e. split; [done|]. right. exists x, g. split_and!; [left|done|done|done].
        -- destruct (IH (download_list ++ [g]) (dirs ∪ {[model_dir base g]}))
             as (e & Hr & He).
           exists e. split; [done|].
           destruct He as [(m' & Hin' & Hm' & ->)|(m' & g' & Hin' & Hm' & Hnew & He)].
           ++ left. exists m'. split_and!; [by right|done|done].
           ++ right. exists m', g'. split_and!; [by right|done| |done].
              intros Hd. apply Hnew. apply elem_of_union. by left.
    + eexists. split; [done|]. left. exists x. split_and!; [left|done|done].
Qed.

End answer_facts.

(** The names of the answer are compared as they are typed: an answer
    that ends with a comma has an empty last name, which is no option, so
    [main_prompt] makes no file list and raises: a [ValueError] for the
    first name that is no option, or before that the exception of a
    [mkdir] that failed for the group of an earlier name. *)
Theorem answer_ending_with_comma_raises (mkdir_error : str -> option exn)
    (base url models : str) (dirs : gset str) :
  ∃ e, main_prompt_files mkdir_error base url (models ++ ",") dirs = Raises e ∧
       ((∃ m, m ∈ PyStr.split (models ++ ",") "," ∧ Dict.get user_entry m = None ∧
              e = ValueError (m ++ " is an unavailable option."))
        ∨ (∃ m g, m ∈ PyStr.split (models ++ ",") "," ∧ Dict.get user_entry m = Some g ∧
                  (model_dir base g ∉ dirs) ∧ mkdir_error (model_dir base g) = Some e)).
Proof.
  unfold main_prompt_files, resolve, download_list_of, requested_models.
  rewrite bool_decide_eq_false_2 by (rewrite length_app; cbn; lia).
  change (models ++ ",") with (models ++ [","%char]). rewrite split_snoc_sep.
  destruct (add_requested_last_unknown mkdir_error base (PyStr.split models ",") []
              ["."] dirs eq_refl) as (e & Hr & He).
  exists e. split; [by rewrite Hr|done].
Qed.

(** The answer [7B,]: the empty name after the comma is refused, unless
    the directory of the 7B group cannot be made. *)
Example answer_7B_comma :
  main_prompt_files writable "/data" "https://host/*" "7B," ∅
  = Raises (ValueError " is an unavailable option.")
  ∧ main_prompt_files file_in_the_way "/data" "https://host/*" "7B," ∅ = Raises file_exists.
Proof. split; vm_compute; reflexivity. Qed.

Section main_prompt_facts.

Lemma add_requested_keeps mkdir_error base G download_list dirs download_list' :
  (add_requested mkdir_error base G download_list dirs).2 = Returns download_list' →
  download_list `prefix_of` download_list'.
Proof.
  revert download_list dirs. induction G as [|m G IH]; intros download_list dirs;
    cbn [add_requested].
  - by intros [= ->].
  - destruct (Dict.get user_entry m) as [g|]; [|done].
    case_bool_decide; [|destruct (mkdir_error (model_dir base g)); [done|]].
    + intros Hr%IH. etrans; [|done]. by apply prefix_app_r.
    + intros Hr%IH. etrans; [|done]. by apply prefix_app_r.
Qed.

End main_prompt_facts.

(** The list that [main_prompt] hands to [verify_md5] is never empty (the
    four files of the root group are always in it), so the verification
    after a download always goes through the downloaded files and never
    scans [chk_folder]. *)
Theorem main_prompt_verifies_downloads (mkdir_error : str -> option exn) (d : Disk)
    (chk_folder base url models : str) (dirs : gset str) (file_list : list FileInfo) :
  main_prompt_files mkdir_error base url models dirs = Returns file_list →
  (4 ≤ length file_list)%nat ∧
  retrieved d chk_folder file_list = FileInfo_str <$> file_list ∧
  verify_md5 d chk_folder file_list = verify_files d (FileInfo_str <$> file_list).
Proof.
  unfold main_prompt_files, resolve, download_list_of. intros H.
  destruct (add_requested mkdir_error base (requested_models models) ["."] dirs)
    as [dirs' [dl| |]] eqn:Hr;
    cbn [snd mbind outcome_bind] in H; [|done|done].
  assert ("." ∈ dl) as Hroot.
  { pose proof (add_requested_keeps mkdir_error base (requested_models models) ["."]
                  dirs dl) as Hp.
    rewrite Hr in Hp. eapply elem_of_prefix; [left|by apply Hp]. }
  destruct (build_file_list dl _ base) as [[fl pr]| |] eqn:Hb; cbn in H; [|done|done].
  injection H as ->.
  apply add_models_spec in Hb as (new & Hfl & Hd & _ & _).
  rewrite app_nil_l in Hfl. subst new.
  assert (4 ≤ length file_list)%nat as Hlen.
  { rewrite (Forall2_length _ _ _ Hd). unfold entries, FILES. cbn [flat_map].
    rewrite bool_decide_eq_true_2 by done. rewrite length_app. cbn. lia. }
  split; [done|].
  assert (retrieved d chk_folder file_list = FileInfo_str <$> file_list) as Hret.
  { unfold retrieved. by rewrite bool_decide_eq_true_2 by lia. }
  split; [done|]. unfold verify_md5. by rewrite Hret.
Qed.

Lemma main_prompt_verifies_downloads_7B :
  ∃ file_list,
    main_prompt_files writable "/data" "https://host/*" "7B" ∅ = Returns file_list ∧
    (4 ≤ length file_list)%nat ∧
    retrieved empty_target "elsewhere" file_list = FileInfo_str <$> file_list ∧
    verify_md5 empty_target "elsewhere" file_list
    = verify_files empty_target (FileInfo_str <$> file_list).
Proof.
  eexists. split; [vm_compute; reflexivity|].
  apply (main_prompt_verifies_downloads writable empty_target "elsewhere" "/data"
           "https://host/*" "7B" ∅).
  vm_compute. reflexivity.
Defined.
